(** * Bollinger squeeze alert: the signal pipeline of [API/cron.py] and
    [alert_scheduler.py]

    The two Python files are near-duplicates.  Functions whose text is the
    same in both are embedded once; where the files differ the definition
    takes the [variant] and branches exactly at the differing line.

    Numbers.  The program computes on IEEE doubles through pandas/numpy.
    They are embedded as exact reals extended with the three special values
    that the program can observe ([NaN], [+inf], [-inf]); rounding and signed
    zeros are not represented.  pandas' [rolling(window).mean()] and
    [.std()] are embedded by their documented meaning: the aggregate of the
    trailing window of [window] rows, [NaN] while the window is incomplete,
    the standard deviation with [ddof = 1].

    Objects.  A DataFrame is an object in a store ([heap]); a Python variable
    holding a frame is a location, so that [calculate_bollinger_bands], which
    assigns columns to its argument, changes the frame its caller holds.

    The outside.  One run reads a [world]: what the two price providers and
    the messaging endpoint answer, the two secrets, and the clock.  A JSON
    payload is represented by what the program converts it to; the text of an
    exception a library raises is part of the world.  What a run prints,
    and each dispatch, is recorded in the [trace] of the state.  An uncaught
    Python exception is the result [None] of the state monad [M]. *)

From Stdlib Require Import Reals Lra ZArith.
From stdpp Require Import gmap strings list fin_maps sorting pretty.

Open Scope R_scope.

(** ** Extended reals standing for numpy float64 values *)

Inductive fval : Type :=
  | Fin (r : R)
  | PInf
  | NInf
  | NaN.

Definition Rltb (x y : R) : bool := if Rlt_dec x y then true else false.
Definition Rleb (x y : R) : bool := if Rle_dec x y then true else false.

(** The sign of a real selects the infinity a product or quotient yields. *)
Definition signed_inf (r : R) (pos neg zero : fval) : fval :=
  if Rlt_dec 0 r then pos else if Rlt_dec r 0 then neg else zero.

Definition fneg (x : fval) : fval :=
  match x with
  | Fin r => Fin (- r)
  | PInf => NInf
  | NInf => PInf
  | NaN => NaN
  end.

Definition fadd (x y : fval) : fval :=
  match x, y with
  | NaN, _ | _, NaN => NaN
  | Fin a, Fin b => Fin (a + b)
  | PInf, NInf | NInf, PInf => NaN
  | PInf, _ | _, PInf => PInf
  | NInf, _ | _, NInf => NInf
  end.

Definition fsub (x y : fval) : fval := fadd x (fneg y).

Definition fmul (x y : fval) : fval :=
  match x, y with
  | NaN, _ | _, NaN => NaN
  | Fin a, Fin b => Fin (a * b)
  | Fin a, PInf | PInf, Fin a => signed_inf a PInf NInf NaN
  | Fin a, NInf | NInf, Fin a => signed_inf a NInf PInf NaN
  | PInf, PInf | NInf, NInf => PInf
  | PInf, NInf | NInf, PInf => NInf
  end.

Definition fdiv (x y : fval) : fval :=
  match x, y with
  | NaN, _ | _, NaN => NaN
  | Fin a, Fin b =>
      if Req_dec_T b 0 then signed_inf a PInf NInf NaN else Fin (a / b)
  | Fin _, (PInf | NInf) => Fin 0
  | PInf, Fin b => if Rlt_dec b 0 then NInf else PInf
  | NInf, Fin b => if Rlt_dec b 0 then PInf else NInf
  | (PInf | NInf), (PInf | NInf) => NaN
  end.

Definition fsqrt (x : fval) : fval :=
  match x with
  | Fin r => if Rlt_dec r 0 then NaN else Fin (sqrt r)
  | PInf => PInf
  | NInf | NaN => NaN
  end.

(** Python's [x < y] on floats: false as soon as one side is NaN. *)
Definition flt (x y : fval) : bool :=
  match x, y with
  | NaN, _ | _, NaN => false
  | Fin a, Fin b => Rltb a b
  | NInf, (Fin _ | PInf) => true
  | Fin _, PInf => true
  | _, _ => false
  end.

Definition is_nan (x : fval) : bool :=
  match x with NaN => true | _ => false end.

(** ** pandas: Series, rolling windows, DataFrame *)

(** A Series is the list of its values in row order. *)
Definition fsum (xs : list fval) : fval := foldr fadd (Fin 0) xs.

Definition window_mean (w : list fval) : fval :=
  fdiv (fsum w) (Fin (INR (length w))).

(** Sample variance, [ddof = 1] (the pandas default). *)
Definition window_var (w : list fval) : fval :=
  let m := window_mean w in
  fdiv (fsum ((λ x, fmul (fsub x m) (fsub x m)) <$> w))
       (Fin (INR (length w) - 1)).

Definition window_std (w : list fval) : fval := fsqrt (window_var w).

(** [s.rolling(window=period).<agg>()]: row [i] aggregates rows
    [i-period+1 .. i]; [min_periods] defaults to [period], so the first
    [period-1] rows are NaN. *)
Definition rolling (period : nat) (agg : list fval → fval)
    (s : list fval) : list fval :=
  imap (λ i _, if decide (i + 1 < period)%nat then NaN
               else agg (take period (drop (i + 1 - period) s))) s.

Definition rolling_mean (period : nat) := rolling period window_mean.
Definition rolling_std (period : nat) := rolling period window_std.

(** Element-wise Series arithmetic (the operands share the frame's index). *)
Definition series_add (a b : list fval) : list fval := zip_with fadd a b.
Definition series_sub (a b : list fval) : list fval := zip_with fsub a b.
Definition series_div (a b : list fval) : list fval := zip_with fdiv a b.
Definition series_scale (k : fval) (a : list fval) : list fval := fmul k <$> a.

(** A DataFrame: the row index (timestamps as epoch seconds) and the named
    columns. *)
Record DataFrame : Type := mkDataFrame {
  index : list Z;
  columns : gmap string (list fval);
}.

Definition df_len (d : DataFrame) : nat := length (index d).

(** [df[name] = s] on the frame value. *)
Definition set_column (name : string) (s : list fval) (d : DataFrame) : DataFrame :=
  {| index := index d; columns := <[name := s]> (columns d) |}.

(** [d.iloc[i][name]]: one cell of a frame. *)
Definition cell (d : DataFrame) (name : string) (i : nat) : option fval :=
  columns d !! name ≫= (.!! i).

(** ** Program state: the object store and the observable effects *)

Definition loc := nat.

(** What the program prints; the constructor names the line. *)
Inductive log_line : Type :=
  | LogTriggered                     (* "[...] Cron job triggered" *)
  | LogCritical                      (* "CRITICAL ERROR: TELEGRAM_BOT_TOKEN or ..." *)
  | LogTwelveFailed (error : string) (* "Twelve Data failed. Trying Yahoo Fallback. Error: ..." *)
  | LogTelegramMissing               (* "Telegram configuration missing. ..." *)
  | LogExecutionFailed (msg : string)(* "Execution failed: ..." *)
  | LogSignalDetected (price band_width : fval)
  | LogAlertSent                     (* "Alert sent successfully" *)
  | LogAlertFailed (msg : string)    (* "Alert failed: ..." *)
  | LogCooldown (remaining : Z)      (* "Cooldown active: ... min remaining" *)
  | LogNoSignal (reasons : string).  (* "No signal: " and ', '.join(reasons) *)

(** What a run prints or sends (newest first in [trace]).  [EvTradeAlert]
    marks the call of [send_trade_alert]; [EvPost] is the POST to the
    messaging endpoint with the values the message text embeds. *)
Inductive event : Type :=
  | EvPrint (line : log_line)
  | EvTradeAlert (price band_width : fval)
  | EvPost (price band_width stop_loss take_profit : fval).

Record state : Type := mkState {
  heap : gmap loc DataFrame;
  trace : list event;
}.

(** State and exception monad: [None] is an uncaught Python exception. *)
Definition M (A : Type) : Type := state → option (A * state).

#[global] Instance M_ret : MRet M := λ A (a : A) s, Some (a, s).
#[global] Instance M_bind : MBind M := λ A B (f : A → M B) (m : M A) s,
  match m s with
  | Some (a, s') => f a s'
  | None => None
  end.
Definition raise {A} : M A := λ _, None.

Definition emit (e : event) : M unit :=
  λ s, Some (tt, {| heap := heap s; trace := e :: trace s |}).

(** A new DataFrame object. *)
Definition alloc (d : DataFrame) : M loc :=
  λ s, let l := fresh (dom (heap s)) in
       Some (l, {| heap := <[l := d]> (heap s); trace := trace s |}).

(** [df[name]]: KeyError when the column is absent. *)
Definition get_column (df : loc) (name : string) : M (list fval) :=
  λ s, match heap s !! df with
       | Some d => match columns d !! name with
                   | Some c => Some (c, s)
                   | None => None
                   end
       | None => None
       end.

(** [df[name] = s]: mutates the object [df] refers to. *)
Definition setitem (df : loc) (name : string) (c : list fval) : M unit :=
  λ s, match heap s !! df with
       | Some d => Some (tt, {| heap := <[df := set_column name c d]> (heap s);
                                trace := trace s |})
       | None => None
       end.

(** ** Technical analysis (cron.py 122-129, alert_scheduler.py 126-133) *)

Definition calculate_bollinger_bands (df : loc) (period : nat) (std : fval)
    : M loc :=
  close ← get_column df "Close";
  setitem df "SMA" (rolling_mean period close);;
  close ← get_column df "Close";
  setitem df "STD" (rolling_std period close);;
  sma ← get_column df "SMA";
  sd ← get_column df "STD";
  setitem df "Upper_Band" (series_add sma (series_scale std sd));;
  sma ← get_column df "SMA";
  sd ← get_column df "STD";
  setitem df "Lower_Band" (series_sub sma (series_scale std sd));;
  upper ← get_column df "Upper_Band";
  lower ← get_column df "Lower_Band";
  sma ← get_column df "SMA";
  setitem df "Band_Width" (series_div (series_sub upper lower) sma);;
  mret df.


(** ** Configuration (cron.py 20-32, alert_scheduler.py 20-36) *)

Inductive variant : Type :=
  | Cron         (* API/cron.py *)
  | Scheduler.   (* alert_scheduler.py *)

Definition BOLLINGER_PERIOD : nat := 20.
Definition BOLLINGER_STD : fval := Fin 2.
Definition SQUEEZE_THRESHOLD (v : variant) : R :=
  match v with
  | Cron => 2 / 1000
  | Scheduler => 2 / 10000
  end.
Definition EXCLUDED_HOURS : list Z := [7; 8; 9; 12; 13; 14]%Z.
Definition ALERT_COOLDOWN : R := 3600.

(** ** The world of one run: what the network, the environment and the
    clock answer *)

(** Outcome of one [requests.get] / [requests.post]. *)
Inductive http_result (B : Type) : Type :=
  | Raised (e : string)
      (* the call raised a requests.RequestException; [e] is [str(e)] *)
  | Responded (status_code : Z) (status_error : string) (body : B).
      (* [status_error]: text of the HTTPError that [raise_for_status()]
         raises for this response when the status is 4xx/5xx *)
Arguments Raised {B} e.
Arguments Responded {B} status_code status_error body.

(** [response.raise_for_status()] raises exactly on 4xx and 5xx. *)
Definition is_error_status (code : Z) : bool :=
  bool_decide (400 ≤ code < 600)%Z.

(** A JSON member that the program converts: the converted value, a JSON
    null (or a member that this row lacks while another row has it), or a
    value whose conversion raises with the text [e]. *)
Inductive field (A : Type) : Type :=
  | Val (a : A)
  | Null
  | Bad (e : string).
Arguments Val {A} a.
Arguments Null {A}.
Arguments Bad {A} e.

(** One element of Twelve Data's ["values"]: [datetime] as
    [pd.to_datetime] reads it (epoch seconds, or the text of the exception
    it raises), and the four price strings as [float] reads them. *)
Record twelve_row : Type := mkTwelveRow {
  tw_datetime : Z + string;
  tw_open : field fval;
  tw_high : field fval;
  tw_low : field fval;
  tw_close : field fval;
}.

(** What [response.json()] gives for the Twelve Data request. *)
Inductive twelve_json : Type :=
  | TwInvalid (e : string)      (* [response.json()] raised *)
  | TwObject (message : option string) (values : option (list twelve_row)).

(** [data["chart"]["result"][0]] of the Yahoo answer. *)
Record yahoo_result : Type := mkYahooResult {
  y_timestamp : list Z;
  y_open : list (option fval);
  y_high : list (option fval);
  y_low : list (option fval);
  y_close : list (option fval);
}.

Inductive yahoo_json : Type :=
  | YInvalid (e : string)       (* [response.json()] raised *)
  | YMalformed (e : string)     (* a subscript on the way to the quotes raised *)
  | YChart (r : yahoo_result).

Record world : Type := mkWorld {
  twelve_reply : http_result twelve_json;
  yahoo_reply : http_result yahoo_json;
  telegram_reply : http_result string;      (* body: [response.text] *)
  TELEGRAM_BOT_TOKEN : option string;
  TELEGRAM_CHAT_ID : option string;
  now_iso : string;   (* datetime.now(timezone.utc).isoformat() in analyze_market *)
  now_hour : Z;       (* datetime.now(timezone.utc).hour at the decision *)
  now_ts : R;         (* ....timestamp() at the cooldown check *)
  sent_ts : R;        (* ....timestamp() when the dispatch is recorded *)
}.

(** ** State management (cron.py 38-51, alert_scheduler.py 42-51) *)

Definition get_last_alert_time : M R := mret 0.

Definition set_last_alert_time (timestamp : R) : M unit := mret tt.

(** ** Data fetching *)

(** One row of a price frame. *)
Record bar : Type := mkBar {
  ts : Z;
  Open : fval;
  High : fval;
  Low : fval;
  Close : fval;
}.

Definition frame_of_bars (bs : list bar) : DataFrame :=
  {| index := ts <$> bs;
     columns := <["Open" := Open <$> bs]> (<["High" := High <$> bs]>
                (<["Low" := Low <$> bs]> (<["Close" := Close <$> bs]> ∅))) |}.

(** Ordering rows by their timestamp. *)
Definition key_le {A} (key : A → Z) : relation A :=
  λ a b, (key a ≤ key b)%Z.
#[global] Instance key_le_dec {A} (key : A → Z) : RelDecision (key_le key).
Proof. intros a b. unfold key_le. apply _. Defined.

(** [df.sort_index()]: rows in ascending order of the index.  pandas'
    default sort does not fix the order of rows with equal timestamps;
    merge sort is one admissible order. *)
Definition sort_index {A} (key : A → Z) (rows : list A) : list A :=
  merge_sort (key_le key) rows.

(** [df.dropna()]: rows with a NaN in any column are removed. *)
Definition has_nan (b : bar) : bool :=
  is_nan (Open b) || is_nan (High b) || is_nan (Low b) || is_nan (Close b).
Definition dropna (bs : list bar) : list bar :=
  filter (λ b, has_nan b = false) bs.

(** Conversions; the first failure is the exception raised. *)
Fixpoint collect {A} (xs : list (A + string)) : list A + string :=
  match xs with
  | [] => inl []
  | inr e :: _ => inr e
  | inl a :: xs => match collect xs with
                   | inl l => inl (a :: l)
                   | inr e => inr e
                   end
  end.

(** [astype(float)] on one cell: null becomes NaN. *)
Definition to_float (c : field fval) : fval + string :=
  match c with
  | Val x => inl x
  | Null => inl NaN
  | Bad e => inr e
  end.

(** cron.py 74-84: build the frame from ["values"].  Rows after
    [to_datetime] and [sort_index] still hold the raw price members. *)
Definition twelve_frame (rows : list twelve_row) : DataFrame + string :=
  match rows with
  | [] => inr "'datetime'"      (* KeyError: an empty frame has no column *)
  | _ =>
    match collect ((λ r, match tw_datetime r with
                         | inl t => inl (t, r)
                         | inr e => inr e
                         end) <$> rows) with
    | inr e => inr e
    | inl dated =>
      let sorted := sort_index fst dated in
      match collect (to_float ∘ tw_open ∘ snd <$> sorted),
            collect (to_float ∘ tw_high ∘ snd <$> sorted),
            collect (to_float ∘ tw_low ∘ snd <$> sorted),
            collect (to_float ∘ tw_close ∘ snd <$> sorted) with
      | inl o, inl h, inl l, inl c =>
          inl {| index := fst <$> sorted;
                 columns := <["Open" := o]> (<["High" := h]>
                            (<["Low" := l]> (<["Close" := c]> ∅))) |}
      | inr e, _, _, _ | _, inr e, _, _ | _, _, inr e, _ | _, _, _, inr e =>
          inr e
      end
    end
  end.

(** [return df, None] and [return None, <text>]: the frame is a new object
    in the store. *)
Definition returning (x : DataFrame + string) : M (option loc * option string) :=
  match x with
  | inl d => df ← alloc d; mret (Some df, None)
  | inr e => mret (None, Some e)
  end.

(** What [fetch_twelve_data] builds or reports (cron.py 67-89,
    alert_scheduler.py 67-92). *)
Definition twelve_data_outcome (v : variant) (w : world) : DataFrame + string :=
  let request_failed (e : string) : string :=
    match v with
    | Cron => e                                   (* except Exception *)
    | Scheduler => "Request failed: " +:+ e       (* except RequestException *)
    end in
  match twelve_reply w with
  | Raised e => inr (request_failed e)
  | Responded code status_error body =>
      if match v with
         | Cron => false
         | Scheduler => is_error_status code     (* raise_for_status() *)
         end
      then inr ("Request failed: " +:+ status_error)
      else
        match body with
        | TwInvalid e =>
            (* requests' JSONDecodeError is a RequestException *)
            inr (request_failed e)
        | TwObject message None =>
            inr ("API Error: " +:+ default "Unknown" message)
        | TwObject _ (Some rows) => twelve_frame rows
        end
  end.

Definition fetch_twelve_data (v : variant) (w : world)
    : M (option loc * option string) :=
  returning (twelve_data_outcome v w).

(** A JSON number, or [null], as a float cell. *)
Definition of_json_number (x : option fval) : fval := default NaN x.

(** The rows of the Yahoo frame before [dropna]: the timestamps zipped with
    the four quote vectors. *)
Definition yahoo_rows (r : yahoo_result) : list bar :=
  zip_with (λ t '(o, h, l, c),
              mkBar t (of_json_number o) (of_json_number h)
                    (of_json_number l) (of_json_number c))
    (y_timestamp r)
    (zip (zip (zip (y_open r) (y_high r)) (y_low r)) (y_close r)).

(** cron.py 104-111: the frame of the Yahoo quotes. *)
Definition yahoo_frame (r : yahoo_result) : DataFrame + string :=
  let n := length (y_open r) in
  if negb (bool_decide (length (y_high r) = n ∧ length (y_low r) = n
                        ∧ length (y_close r) = n))
  then inr "All arrays must be of the same length"
  else if negb (bool_decide (length (y_timestamp r) = n))
  then inr ("Length mismatch: Expected axis has " +:+ pretty n +:+
            " elements, new values have " +:+ pretty (length (y_timestamp r))
            +:+ " elements")
  else inl (frame_of_bars (sort_index ts (dropna (yahoo_rows r)))).

(** What [fetch_yahoo_fallback] builds or reports (cron.py 93-116,
    alert_scheduler.py 96-120). *)
Definition yahoo_outcome (v : variant) (w : world) : DataFrame + string :=
  let failed (e : string) : string :=
    match v with
    | Cron => e
    | Scheduler => "Yahoo fetch failed: " +:+ e
    end in
  match yahoo_reply w with
  | Raised e => inr (failed e)
  | Responded code status_error body =>
      if match v with
         | Cron => false
         | Scheduler => is_error_status code     (* raise_for_status() *)
         end
      then inr (failed status_error)
      else
        match body with
        | YInvalid e | YMalformed e => inr (failed e)
        | YChart r =>
            match yahoo_frame r with
            | inl d => inl d
            | inr e => inr (failed e)
            end
        end
  end.

Definition fetch_yahoo_fallback (v : variant) (w : world)
    : M (option loc * option string) :=
  returning (yahoo_outcome v w).

(** ** Market analysis (cron.py 131-179, alert_scheduler.py 135-184) *)

Inductive status_t : Type := StError | StSuccess.

(** [result['data']] of a successful analysis. *)
Record analysis : Type := mkAnalysis {
  price : fval;
  band_width : fval;
  threshold : R;
  is_squeeze : bool;
  current_hour : Z;
  is_valid_hour : bool;
  signal : bool;
  bars_analyzed : nat;
}.

(** The [result] dictionary; [data = None] is the empty dictionary, the
    last four members exist only once [do_GET] has added them. *)
Record result : Type := mkResult {
  timestamp : string;
  status : status_t;
  message : string;
  data : option analysis;
  alert_sent : option bool;
  alert_error : option string;
  cooldown_active : option bool;
  cooldown_remaining : option string;
}.

(** [len(df)]. *)
Definition len (df : loc) : M nat :=
  λ s, match heap s !! df with
       | Some d => Some (df_len d, s)
       | None => None
       end.

(** [df.iloc[-1][name]]: IndexError on an empty frame. *)
Definition iloc_last (df : loc) (name : string) : M fval :=
  λ s, match heap s !! df with
       | Some d =>
           match df_len d with
           | O => None
           | S i => match cell d name i with
                    | Some x => Some (x, s)
                    | None => None
                    end
           end
       | None => None
       end.

(** Python's [f"{error}"] of a value that may be [None]. *)
Definition fmt_error (error : option string) : string := default "None" error.

Definition analyze_market (v : variant) (w : world) : M result :=
  let result (st : status_t) (msg : string) (d : option analysis) :=
    {| timestamp := now_iso w; status := st; message := msg; data := d;
       alert_sent := None; alert_error := None;
       cooldown_active := None; cooldown_remaining := None |} in
  (* Fetch data *)
  '(df, error) ← fetch_twelve_data v w;
  '(df, error) ←
    match df with
    | None =>
        match v with
        | Cron => mret tt
        | Scheduler => emit (EvPrint (LogTwelveFailed (fmt_error error)))
        end;;
        fetch_yahoo_fallback v w
    | Some _ => mret (df, error)
    end;
  match df with
  | None => mret (result StError ("Data fetch failed: " +:+ fmt_error error) None)
  | Some df =>
      n ← len df;
      if bool_decide (n < BOLLINGER_PERIOD)%nat
      then mret (result StError
                   ("Insufficient data: " +:+ pretty n +:+ " bars") None)
      else
        (* Calculate Bollinger Bands *)
        df ← calculate_bollinger_bands df BOLLINGER_PERIOD BOLLINGER_STD;
        (* Get latest values *)
        current_price ← iloc_last df "Close";
        band_width ← iloc_last df "Band_Width";
        (* Check conditions *)
        let is_squeeze := flt band_width (Fin (SQUEEZE_THRESHOLD v)) in
        let current_hour := now_hour w in
        let is_valid_hour := negb (bool_decide (current_hour ∈ EXCLUDED_HOURS)) in
        bars ← len df;
        mret (result StSuccess ""
                (Some {| price := current_price;
                         band_width := band_width;
                         threshold := SQUEEZE_THRESHOLD v;
                         is_squeeze := is_squeeze;
                         current_hour := current_hour;
                         is_valid_hour := is_valid_hour;
                         signal := is_squeeze && is_valid_hour;
                         bars_analyzed := bars |}))
  end.

(** ** Telegram notifications (cron.py 185-236, alert_scheduler.py 190-243) *)

(** Python truthiness of an environment variable. *)
Definition truthy (x : option string) : bool :=
  match x with
  | Some s => negb (bool_decide (s = ""))
  | None => false
  end.

(** [send_telegram_message]; the message text is represented by the four
    numbers it embeds. *)
Definition send_telegram_message (v : variant) (w : world)
    (price band_width stop_loss take_profit : fval) : M (bool * string) :=
  if negb (truthy (TELEGRAM_BOT_TOKEN w)) || negb (truthy (TELEGRAM_CHAT_ID w))
  then
    match v with
    | Cron => mret tt
    | Scheduler => emit (EvPrint LogTelegramMissing)
    end;;
    mret (false, "Telegram not configured")
  else
    emit (EvPost price band_width stop_loss take_profit);;
    match telegram_reply w, v with
    | Raised e, Cron => mret (false, e)
    | Raised e, Scheduler =>
        mret (false, "Telegram request failed: " +:+ e +:+ " - Response: N/A")
    | Responded code _ text, Cron =>
        if bool_decide (code = 200%Z) then mret (true, "Sent")
        else mret (false, text)
    | Responded code status_error text, Scheduler =>
        if is_error_status code
        then mret (false, "Telegram request failed: " +:+ status_error
                          +:+ " - Response: " +:+ text)
        else mret (true, "Sent")
    end.

Definition send_trade_alert (v : variant) (w : world) (d : analysis)
    : M (bool * string) :=
  emit (EvTradeAlert (price d) (band_width d));;
  (* Calculate trade parameters *)
  let stop_loss := fadd (price d) (Fin (4 / 10000)) in
  let take_profit := fsub (price d) (Fin (20 / 10000)) in
  send_telegram_message v w (price d) (band_width d) stop_loss take_profit.

(** ** Entry points *)

(** [int(x)]: truncation towards zero. *)
Definition trunc (x : R) : Z :=
  if Rle_dec 0 x then Int_part x else (- Int_part (- x))%Z.

(** [reasons] of the no-signal branch, joined with [', ']. *)
Definition no_signal_reasons (d : analysis) : list string :=
  (if negb (is_squeeze d) then ["No squeeze"] else [])
  ++ (if negb (is_valid_hour d) then ["Invalid hour"] else []).

Definition join_reasons (reasons : list string) : string :=
  String.concat ", " reasons.

(** [result['data']], then a member of it: KeyError on the empty
    dictionary. *)
Definition the_data (r : result) : M analysis :=
  match data r with
  | Some d => mret d
  | None => raise
  end.

(** cron.py 266-324, [handler.do_GET]: the HTTP status sent and the
    dictionary serialised into the body. *)
Definition do_GET (w : world) : M (Z * result) :=
  emit (EvPrint LogTriggered);;
  (* Analyze market *)
  result ← analyze_market Cron w;
  match status result with
  | StError => mret (500%Z, result)
  | StSuccess =>
      d ← the_data result;
      result ←
        (if signal d then
           emit (EvPrint (LogSignalDetected (price d) (band_width d)));;
           (* Check cooldown *)
           last_alert ← get_last_alert_time;
           let time_since := now_ts w - last_alert in
           if Rleb ALERT_COOLDOWN time_since then
             '(success, msg) ← send_trade_alert Cron w d;
             if success : bool then
               set_last_alert_time (sent_ts w);;
               emit (EvPrint LogAlertSent);;
               mret {| timestamp := timestamp result; status := status result;
                       message := message result; data := data result;
                       alert_sent := Some true;
                       alert_error := alert_error result;
                       cooldown_active := cooldown_active result;
                       cooldown_remaining := cooldown_remaining result |}
             else
               emit (EvPrint (LogAlertFailed msg));;
               mret {| timestamp := timestamp result; status := status result;
                       message := message result; data := data result;
                       alert_sent := alert_sent result;
                       alert_error := Some msg;
                       cooldown_active := cooldown_active result;
                       cooldown_remaining := cooldown_remaining result |}
           else
             let remaining := trunc ((ALERT_COOLDOWN - time_since) / 60) in
             emit (EvPrint (LogCooldown remaining));;
             mret {| timestamp := timestamp result; status := status result;
                     message := message result; data := data result;
                     alert_sent := alert_sent result;
                     alert_error := alert_error result;
                     cooldown_active := Some true;
                     cooldown_remaining :=
                       Some (pretty remaining +:+ " minutes") |}
         else
           (* No signal *)
           emit (EvPrint (LogNoSignal (join_reasons (no_signal_reasons d))));;
           mret result);
      mret (200%Z, result)
  end.

(** How [main_execution] ends. *)
Inductive exit : Type :=
  | SysExit (code : Z)
  | Returned.

(** alert_scheduler.py 249-297. *)
Definition main_execution (w : world) : M exit :=
  (* CHECK ENVIRONMENT *)
  if negb (truthy (TELEGRAM_BOT_TOKEN w) && truthy (TELEGRAM_CHAT_ID w))
  then emit (EvPrint LogCritical);; mret (SysExit 1)
  else
    emit (EvPrint LogTriggered);;
    (* ANALYZE MARKET *)
    result ← analyze_market Scheduler w;
    match status result with
    | StError =>
        emit (EvPrint (LogExecutionFailed (message result)));;
        mret Returned
    | StSuccess =>
        (* CHECK SIGNAL & COOLDOWN *)
        d ← the_data result;
        (if signal d then
           emit (EvPrint (LogSignalDetected (price d) (band_width d)));;
           last_alert ← get_last_alert_time;
           let time_since := now_ts w - last_alert in
           if Rleb ALERT_COOLDOWN time_since then
             '(success, msg) ← send_trade_alert Scheduler w d;
             if success : bool then
               set_last_alert_time (sent_ts w);;
               emit (EvPrint LogAlertSent)
             else
               emit (EvPrint (LogAlertFailed msg))
           else
             let remaining := trunc ((ALERT_COOLDOWN - time_since) / 60) in
             emit (EvPrint (LogCooldown remaining))
         else
           emit (EvPrint (LogNoSignal (join_reasons (no_signal_reasons d)))));;
        mret Returned
    end.

(** The cooldown guard of the two entry points (cron.py 291-294,
    alert_scheduler.py 274-277) on its own: may an alert go out at [now]? *)
Definition should_dispatch (now : R) : M bool :=
  last_alert ← get_last_alert_time;
  let time_since := now - last_alert in
  mret (Rleb ALERT_COOLDOWN time_since).

(** The state a run starts in. *)
Definition init_state : state := {| heap := ∅; trace := [] |}.

(** cron.py 326-328, [handler.do_POST]: a manual trigger runs the same job. *)
Definition do_POST (w : world) : M (Z * result) := do_GET w.
(** * Proof-side definitions *)

(** The frame value [calculate_bollinger_bands] leaves in the store. *)
Definition with_bands (close : list fval) (period : nat) (std : fval)
    (d : DataFrame) : DataFrame :=
  let sma := rolling_mean period close in
  let sd := rolling_std period close in
  let upper := series_add sma (series_scale std sd) in
  let lower := series_sub sma (series_scale std sd) in
  let bw := series_div (series_sub upper lower) sma in
  set_column "Band_Width" bw
    (set_column "Lower_Band" lower
       (set_column "Upper_Band" upper
          (set_column "STD" sd (set_column "SMA" sma d)))).

(** ** Window statistics over exact closes, by index

    The window statistics as the specification words them, written with the Standard Library's
    finite sums over the row indices [i-period+1 .. i]. *)

Definition close_at (cs : list R) (j : nat) : R := nth j cs 0.

Definition mean_at (cs : list R) (period i : nat) : R :=
  sum_f_R0 (λ k, close_at cs (i + 1 - period + k)) (period - 1) / INR period.

Definition sample_var_at (cs : list R) (period i : nat) : R :=
  sum_f_R0 (λ k, Rsqr (close_at cs (i + 1 - period + k) - mean_at cs period i))
           (period - 1)
  / (INR period - 1).

Definition sample_std_at (cs : list R) (period i : nat) : R :=
  sqrt (sample_var_at cs period i).

Definition Rsum (xs : list R) : R := foldr Rplus 0 xs.

Definition indicator_columns : list string :=
  ["SMA"; "STD"; "Upper_Band"; "Lower_Band"; "Band_Width"].


(** ** Outcome of the two-provider fetch in [analyze_market] *)

Definition fetched (v : variant) (w : world) : DataFrame + string :=
  match twelve_data_outcome v w with
  | inl d => inl d
  | inr _ => yahoo_outcome v w
  end.

(** The trace after the fetch: only alert_scheduler.py prints the primary
    provider's error. *)
Definition fetch_trace (v : variant) (w : world) (tr : list event) : list event :=
  match v, twelve_data_outcome v w with
  | Scheduler, inr e => EvPrint (LogTwelveFailed e) :: tr
  | _, _ => tr
  end.

Definition error_result (w : world) (msg : string) : result :=
  {| timestamp := now_iso w; status := StError; message := msg; data := None;
     alert_sent := None; alert_error := None;
     cooldown_active := None; cooldown_remaining := None |}.

Definition success_result (w : world) (d : analysis) : result :=
  {| timestamp := now_iso w; status := StSuccess; message := ""; data := Some d;
     alert_sent := None; alert_error := None;
     cooldown_active := None; cooldown_remaining := None |}.

(** The evaluation of [analyze_market] on the latest price and band width. *)
Definition evaluation (v : variant) (w : world) (p bw : fval) (n : nat) : analysis :=
  {| price := p; band_width := bw; threshold := SQUEEZE_THRESHOLD v;
     is_squeeze := flt bw (Fin (SQUEEZE_THRESHOLD v));
     current_hour := now_hour w;
     is_valid_hour := negb (bool_decide (now_hour w ∈ EXCLUDED_HOURS));
     signal := flt bw (Fin (SQUEEZE_THRESHOLD v))
               && negb (bool_decide (now_hour w ∈ EXCLUDED_HOURS));
     bars_analyzed := n |}.

(** A frame as the fetchers return it: a Close column as long as the index. *)
Definition has_close (d : DataFrame) (close : list fval) : Prop :=
  columns d !! "Close" = Some close ∧ length close = df_len d.

(** The three ways [analyze_market] ends; it never raises. *)
Inductive analysis_case (v : variant) (w : world) (s : state)
    : result → state → Prop :=
  | Fetch_failed e :
      fetched v w = inr e →
      analysis_case v w s
        (error_result w ("Data fetch failed: " +:+ e))
        {| heap := heap s; trace := fetch_trace v w (trace s) |}
  | Insufficient d :
      fetched v w = inl d → (df_len d < BOLLINGER_PERIOD)%nat →
      analysis_case v w s
        (error_result w
           ("Insufficient data: " +:+ pretty (df_len d) +:+ " bars"))
        {| heap := <[fresh (dom (heap s)) := d]> (heap s);
           trace := fetch_trace v w (trace s) |}
  | Evaluated d close i p bw :
      fetched v w = inl d → has_close d close →
      df_len d = S i → (BOLLINGER_PERIOD ≤ S i)%nat →
      close !! i = Some p →
      cell (with_bands close BOLLINGER_PERIOD BOLLINGER_STD d) "Band_Width" i
        = Some bw →
      analysis_case v w s
        (success_result w (evaluation v w p bw (S i)))
        {| heap := <[fresh (dom (heap s))
                     := with_bands close BOLLINGER_PERIOD BOLLINGER_STD d]>
                   (heap s);
           trace := fetch_trace v w (trace s) |}.


(** ** Observing a run *)

(** The state after the entry point has printed its first line. *)
Definition triggered (s : state) : state :=
  {| heap := heap s; trace := EvPrint LogTriggered :: trace s |}.

(** The dispatch events of a trace: calls of [send_trade_alert] and POSTs. *)
Fixpoint dispatches (tr : list event) : list event :=
  match tr with
  | [] => []
  | EvPrint _ :: tr => dispatches tr
  | e :: tr => e :: dispatches tr
  end.

(** Both Telegram secrets are set. *)
Definition configured (w : world) : bool :=
  truthy (TELEGRAM_BOT_TOKEN w) && truthy (TELEGRAM_CHAT_ID w).

(** The dispatch events of a run that found a signal (newest first): the
    call of [send_trade_alert] once the cooldown check passes, and the POST
    when Telegram is configured. *)
Definition alert_events (w : world) (d : analysis) : list event :=
  if Rleb ALERT_COOLDOWN (now_ts w) then
    (if configured w
     then [EvPost (price d) (band_width d)
                  (fadd (price d) (Fin (4 / 10000)))
                  (fsub (price d) (Fin (20 / 10000)))]
     else [])
    ++ [EvTradeAlert (price d) (band_width d)]
  else [].

(** [needle in hay] on strings. *)
Fixpoint contains (needle hay : string) : bool :=
  String.prefix needle hay
  || match hay with
     | EmptyString => false
     | String _ hay' => contains needle hay'
     end.

Definition price_columns : list string := ["Open"; "High"; "Low"; "Close"].




(** The dispatch events a run adds, given the report of its analysis. *)
Definition run_dispatches (w : world) (r : result) : list event :=
  match data r with
  | Some d => if signal d then alert_events w d else []
  | None => []
  end.

(** ** Proof-side definitions for the further properties *)

(** The price a Twelve Data member becomes once the payload is accepted. *)
Definition price_of (c : field fval) : fval :=
  match c with
  | Val x => x
  | Null | Bad _ => NaN
  end.

(** One Twelve Data row as a bar (timestamp 0 stands for an unreadable
    [datetime], which an accepted payload does not contain). *)
Definition twelve_bar (r : twelve_row) : bar :=
  mkBar (match tw_datetime r with inl t => t | inr _ => 0%Z end)
        (price_of (tw_open r)) (price_of (tw_high r))
        (price_of (tw_low r)) (price_of (tw_close r)).

(** A row that [pd.to_datetime] and [astype(float)] can read. *)
Definition readable (r : twelve_row) : Prop :=
  (∃ t, tw_datetime r = inl t)
  ∧ (∀ e, tw_open r ≠ Bad e) ∧ (∀ e, tw_high r ≠ Bad e)
  ∧ (∀ e, tw_low r ≠ Bad e) ∧ (∀ e, tw_close r ≠ Bad e).

(** [pd.to_datetime] on the [datetime] member of one row, as in
    [twelve_frame]. *)
Definition with_datetime (r : twelve_row) : (Z * twelve_row) + string :=
  match tw_datetime r with
  | inl t => inl (t, r)
  | inr e => inr e
  end.

Definition dated_bar (p : Z * twelve_row) : bar :=
  mkBar p.1 (price_of (tw_open p.2)) (price_of (tw_high p.2))
        (price_of (tw_low p.2)) (price_of (tw_close p.2)).

(** The world with another answer of the fallback provider. *)
Definition with_yahoo_reply (y : http_result yahoo_json) (w : world) : world :=
  {| twelve_reply := twelve_reply w;
     yahoo_reply := y;
     telegram_reply := telegram_reply w;
     TELEGRAM_BOT_TOKEN := TELEGRAM_BOT_TOKEN w;
     TELEGRAM_CHAT_ID := TELEGRAM_CHAT_ID w;
     now_iso := now_iso w;
     now_hour := now_hour w;
     now_ts := now_ts w;
     sent_ts := sent_ts w |}.

(** The same answer under another HTTP status line. *)
Definition restatus {B} (code : Z) (status_error : string)
    (r : http_result B) : http_result B :=
  match r with
  | Raised e => Raised e
  | Responded _ _ body => Responded code status_error body
  end.

(** The world in which the two providers answer with other status lines. *)
Definition with_provider_status (c1 : Z) (e1 : string) (c2 : Z) (e2 : string)
    (w : world) : world :=
  {| twelve_reply := restatus c1 e1 (twelve_reply w);
     yahoo_reply := restatus c2 e2 (yahoo_reply w);
     telegram_reply := telegram_reply w;
     TELEGRAM_BOT_TOKEN := TELEGRAM_BOT_TOKEN w;
     TELEGRAM_CHAT_ID := TELEGRAM_CHAT_ID w;
     now_iso := now_iso w;
     now_hour := now_hour w;
     now_ts := now_ts w;
     sent_ts := sent_ts w |}.



(** Telegram took the message: the secrets are set and the endpoint's
    answer counts as a success for the file at hand. *)
Definition telegram_ok (v : variant) (w : world) : bool :=
  configured w
  && match telegram_reply w, v with
     | Responded code _ _, Cron => bool_decide (code = 200%Z)
     | Responded code _ _, Scheduler => negb (is_error_status code)
     | Raised _, _ => false
     end.

(** The events one call of [send_telegram_message] adds (newest first). *)
Definition telegram_events (v : variant) (w : world)
    (p bw sl tp : fval) : list event :=
  if configured w then [EvPost p bw sl tp]
  else match v with
       | Cron => []
       | Scheduler => [EvPrint LogTelegramMissing]
       end.




(** The trade levels of [send_trade_alert]. *)
Definition stop_loss_of (p : fval) : fval := fadd p (Fin (4 / 10000)).
Definition take_profit_of (p : fval) : fval := fsub p (Fin (20 / 10000)).

(** ** Example inputs *)

(** Two bars, closes 1 and 3. *)
Definition two_bars : DataFrame :=
  frame_of_bars [mkBar 60 (Fin 1) (Fin 1) (Fin 1) (Fin 1);
                 mkBar 120 (Fin 3) (Fin 3) (Fin 3) (Fin 3)].

Definition two_bars_state : state :=
  {| heap := {[ 0%nat := two_bars ]}; trace := [] |}.

(** Twenty bars, every close equal to 1. *)
Definition flat_bars : DataFrame :=
  frame_of_bars ((λ i : nat, mkBar (60 * Z.of_nat i) (Fin 1) (Fin 1) (Fin 1) (Fin 1))
                   <$> seq 0 20).

Definition flat_bars_state : state :=
  {| heap := {[ 0%nat := flat_bars ]}; trace := [] |}.

(** A world in which both providers are unreachable. *)
Definition both_down : world :=
  {| twelve_reply := Raised "primary down";
     yahoo_reply := Raised "fallback down";
     telegram_reply := Responded 200 "" "ok";
     TELEGRAM_BOT_TOKEN := Some "token";
     TELEGRAM_CHAT_ID := Some "chat";
     now_iso := "2024-01-01T03:00:00+00:00";
     now_hour := 3;
     now_ts := 1704078000;
     sent_ts := 1704078001 |}.

(** Twelve Data answers with two rows that carry the same timestamp. *)
Definition dup_world : world :=
  {| twelve_reply :=
       Responded 200 ""
         (TwObject None
            (Some [mkTwelveRow (inl 60%Z) (Val (Fin 1)) (Val (Fin 1))
                               (Val (Fin 1)) (Val (Fin 1));
                   mkTwelveRow (inl 60%Z) (Val (Fin 2)) (Val (Fin 2))
                               (Val (Fin 2)) (Val (Fin 2))]));
     yahoo_reply := Raised "fallback down";
     telegram_reply := Responded 200 "" "ok";
     TELEGRAM_BOT_TOKEN := Some "token";
     TELEGRAM_CHAT_ID := Some "chat";
     now_iso := "2024-01-01T03:00:00+00:00";
     now_hour := 3;
     now_ts := 1704078000;
     sent_ts := 1704078001 |}.

(** Twenty closes with mean 10000 and sample deviation 2: the band width
    is 8/10000, between the two thresholds. *)
Definition wide_closes : list R :=
  [10003; 10003; 10003; 10003; 9997; 9997; 9997; 9997; 10001; 10001;
   9999; 9999; 10000; 10000; 10000; 10000; 10000; 10000; 10000; 10000].

Definition wide_world : world :=
  {| twelve_reply :=
       Responded 200 ""
         (TwObject None
            (Some (imap (λ i c, mkTwelveRow (inl (60 * Z.of_nat i)%Z)
                                  (Val (Fin c)) (Val (Fin c))
                                  (Val (Fin c)) (Val (Fin c)))
                        wide_closes)));
     yahoo_reply := Raised "fallback down";
     telegram_reply := Responded 200 "" "ok";
     TELEGRAM_BOT_TOKEN := Some "token";
     TELEGRAM_CHAT_ID := Some "chat";
     now_iso := "2024-01-01T03:00:00+00:00";
     now_hour := 3;
     now_ts := 1704078000;
     sent_ts := 1704078001 |}.

Definition wide_band_width : fval := Fin (8 / 10000).

(** Two Twelve Data rows, newest first as the provider lists them, and the
    same rows oldest first. *)
Definition rows_newest_first : list twelve_row :=
  [mkTwelveRow (inl 120%Z) (Val (Fin 3)) (Val (Fin 3)) (Val (Fin 3)) (Val (Fin 3));
   mkTwelveRow (inl 60%Z) (Val (Fin 1)) (Val (Fin 1)) (Val (Fin 1)) (Val (Fin 1))].

Definition rows_oldest_first : list twelve_row := reverse rows_newest_first.


(** Both providers answer with an error page. *)
Definition error_pages : world :=
  {| twelve_reply :=
       Responded 500 "500 Server Error: Internal Server Error"
         (TwObject (Some "Internal error") None);
     yahoo_reply :=
       Responded 404 "404 Client Error: Not Found" (YMalformed "'chart'");
     telegram_reply := Responded 200 "" "ok";
     TELEGRAM_BOT_TOKEN := Some "token";
     TELEGRAM_CHAT_ID := Some "chat";
     now_iso := "2024-01-01T03:00:00+00:00";
     now_hour := 3;
     now_ts := 1704078000;
     sent_ts := 1704078001 |}.




Lemma bind_Some {A B} (m : M A) (f : A → M B) s a s' :
  m s = Some (a, s') → (m ≫= f) s = f a s'.
Proof. intros H. unfold mbind, M_bind. by rewrite H. Qed.

Lemma get_column_Some s l d name c :
  heap s !! l = Some d → columns d !! name = Some c →
  get_column l name s = Some (c, s).
Proof. intros H1 H2. unfold get_column. by rewrite H1, H2. Qed.

Lemma setitem_Some s l d name c :
  heap s !! l = Some d →
  setitem l name c s
  = Some (tt, {| heap := <[l := set_column name c d]> (heap s);
                 trace := trace s |}).
Proof. intros H1. unfold setitem. by rewrite H1. Qed.

Lemma calculate_bollinger_bands_run s l d close period std :
  heap s !! l = Some d →
  columns d !! "Close" = Some close →
  calculate_bollinger_bands l period std s
  = Some (l, {| heap := <[l := with_bands close period std d]> (heap s);
                trace := trace s |}).
Proof.
  intros Hl Hc. unfold calculate_bollinger_bands.
  repeat first
    [ erewrite (bind_Some (get_column _ _));
        [| eapply get_column_Some; simpl;
           [ apply lookup_insert_eq || exact Hl
           | simpl; simplify_map_eq; reflexivity ] ]
    | erewrite (bind_Some (setitem _ _ _));
        [| eapply setitem_Some; simpl; apply lookup_insert_eq || exact Hl ] ].
  unfold mret, M_ret. simpl. rewrite ?insert_insert_eq. reflexivity.
Qed.

(** ** Lemmas on sums and windows *)

Lemma fsum_Fin (xs : list R) : fsum (Fin <$> xs) = Fin (Rsum xs).
Proof.
  unfold fsum. induction xs as [|x xs IH]; [done|].
  rewrite fmap_cons. simpl. by rewrite IH.
Qed.

Lemma Rsum_app (xs ys : list R) : Rsum (xs ++ ys) = Rsum xs + Rsum ys.
Proof. induction xs as [|x xs IH]; simpl; [lra | rewrite IH; lra]. Qed.

Lemma Rsum_sum_f_R0 (f : nat → R) (w : list R) (n : nat) :
  length w = S n → (∀ k, (k ≤ n)%nat → nth k w 0 = f k) →
  Rsum w = sum_f_R0 f n.
Proof.
  revert w. induction n as [|n IH]; intros w Hlen Hf.
  - destruct w as [|x [|??]]; simplify_eq/=.
    rewrite <- (Hf 0%nat) by lia. simpl. lra.
  - destruct (decide (w = [])) as [->|Hne]; [done|].
    destruct (exists_last Hne) as (w' & x & ->).
    rewrite length_app in Hlen. simpl in Hlen.
    rewrite Rsum_app. simpl. rewrite (IH w') by first
      [ lia
      | intros k Hk; rewrite <- Hf by lia; by rewrite app_nth1 by lia ].
    rewrite <- (Hf (S n)) by lia.
    rewrite app_nth2 by lia.
    replace (S n - length w')%nat with 0%nat by lia. simpl. lra.
Qed.

Lemma nth_window (cs : list R) (lo n k : nat) :
  (k < n)%nat → (lo + n ≤ length cs)%nat →
  nth k (take n (drop lo cs)) 0 = nth (lo + k) cs 0.
Proof.
  intros Hk Hn.
  rewrite !nth_lookup, lookup_take_lt, lookup_drop by lia. done.
Qed.

Lemma length_window {A} (cs : list A) (lo n : nat) :
  (lo + n ≤ length cs)%nat → length (take n (drop lo cs)) = n.
Proof. intros. rewrite length_take, length_drop. lia. Qed.

Lemma window_sum (cs : list R) (g : R → R) (lo n : nat) :
  (lo + S n ≤ length cs)%nat →
  Rsum (g <$> take (S n) (drop lo cs))
  = sum_f_R0 (λ k, g (close_at cs (lo + k))) n.
Proof.
  intros Hn. apply Rsum_sum_f_R0.
  - by rewrite length_fmap, length_window.
  - intros k Hk. unfold close_at. rewrite <- (nth_window cs lo (S n)) by lia.
    rewrite !nth_lookup, list_lookup_fmap.
    destruct (lookup_lt_is_Some_2 (take (S n) (drop lo cs)) k) as [x Hx].
    { rewrite length_window; lia. }
    by rewrite Hx.
Qed.

Lemma window_mean_Fin (w : list R) :
  w ≠ [] → window_mean (Fin <$> w) = Fin (Rsum w / INR (length w)).
Proof.
  intros Hw. unfold window_mean. rewrite fsum_Fin, length_fmap. simpl.
  destruct (Req_dec_T _ _) as [E|_]; [|done].
  destruct w; [done|]. exfalso. revert E. apply not_0_INR. simpl. lia.
Qed.

Lemma fsum_sq_dev (w : list R) (m : R) :
  fsum ((λ x, fmul (fsub x (Fin m)) (fsub x (Fin m))) <$> (Fin <$> w))
  = Fin (Rsum ((λ x, Rsqr (x - m)) <$> w)).
Proof.
  rewrite <- list_fmap_compose, <- fsum_Fin, <- list_fmap_compose.
  reflexivity.
Qed.

Lemma Rsum_sq_nonneg (w : list R) (m : R) :
  0 <= Rsum ((λ x, Rsqr (x - m)) <$> w).
Proof.
  induction w as [|x w IH]; [simpl; lra|].
  rewrite fmap_cons. apply Rplus_le_le_0_compat; [apply Rle_0_sqr | exact IH].
Qed.

Lemma window_std_Fin (w : list R) :
  (2 ≤ length w)%nat →
  window_std (Fin <$> w)
  = Fin (sqrt (Rsum ((λ x, Rsqr (x - Rsum w / INR (length w))) <$> w)
               / (INR (length w) - 1))).
Proof.
  intros Hw. unfold window_std, window_var. cbv zeta.
  rewrite window_mean_Fin by (intros ->; simpl in Hw; lia).
  rewrite fsum_sq_dev, length_fmap. simpl.
  assert (1 < INR (length w)).
  { change 1 with (INR 1). apply lt_INR. lia. }
  destruct (Req_dec_T _ _) as [E|_]; [lra|]. simpl.
  destruct (Rlt_dec _ _) as [E|_]; [|done].
  exfalso. apply (Rlt_not_le _ _ E).
  apply Rmult_le_pos; [apply Rsum_sq_nonneg|].
  left. apply Rinv_0_lt_compat. lra.
Qed.

Lemma window_std_single (x : R) : window_std (Fin <$> [x]) = NaN.
Proof.
  unfold window_std, window_var, window_mean. cbv zeta. simpl.
  destruct (Req_dec_T 1 0) as [E|_]; [lra|]. simpl.
  destruct (Req_dec_T (1 - 1) 0) as [_|E]; [|lra].
  unfold signed_inf.
  match goal with
  | |- context [Rlt_dec 0 ?e] => replace e with 0 by (field_simplify; lra)
  end.
  destruct (Rlt_dec 0 0) as [E|_]; [lra|]. done.
Qed.

(** Row [i] of a rolling aggregate. *)
Lemma rolling_lookup (period : nat) agg (s : list fval) (i : nat) :
  (i < length s)%nat →
  rolling period agg s !! i
  = Some (if decide (i + 1 < period)%nat then NaN
          else agg (take period (drop (i + 1 - period) s))).
Proof.
  intros Hi. unfold rolling. rewrite list_lookup_imap.
  destruct (lookup_lt_is_Some_2 s i Hi) as [x ->]. done.
Qed.

Lemma length_rolling (period : nat) agg (s : list fval) :
  length (rolling period agg s) = length s.
Proof. unfold rolling. by rewrite length_imap. Qed.

Lemma take_drop_fmap {A B} (f : A → B) (n lo : nat) (l : list A) :
  take n (drop lo (f <$> l)) = f <$> take n (drop lo l).
Proof. by rewrite fmap_take, fmap_drop. Qed.

Lemma rolling_mean_at (cs : list R) (period i : nat) :
  (1 ≤ period)%nat → (period - 1 ≤ i < length cs)%nat →
  rolling_mean period (Fin <$> cs) !! i = Some (Fin (mean_at cs period i)).
Proof.
  intros Hp Hi. unfold rolling_mean.
  rewrite rolling_lookup by (rewrite length_fmap; lia).
  rewrite decide_False by lia. rewrite take_drop_fmap.
  rewrite window_mean_Fin.
  2:{ intros E. apply (f_equal length) in E.
      rewrite length_window in E by lia. simpl in E. lia. }
  rewrite length_window by lia. unfold mean_at.
  destruct period as [|n]; [lia|].
  rewrite <- (list_fmap_id (take _ _)).
  rewrite (window_sum cs id) by lia.
  by replace (S n - 1)%nat with n by lia.
Qed.

Lemma rolling_std_at (cs : list R) (period i : nat) :
  (2 ≤ period)%nat → (period - 1 ≤ i < length cs)%nat →
  rolling_std period (Fin <$> cs) !! i = Some (Fin (sample_std_at cs period i)).
Proof.
  intros Hp Hi. unfold rolling_std.
  rewrite rolling_lookup by (rewrite length_fmap; lia).
  rewrite decide_False by lia. rewrite take_drop_fmap.
  rewrite window_std_Fin by (rewrite length_window; lia).
  rewrite length_window by lia.
  unfold sample_std_at, sample_var_at, mean_at.
  destruct period as [|n]; [lia|].
  rewrite (window_sum cs) by lia.
  assert (Rsum (take (S n) (drop (i + 1 - S n) cs))
          = sum_f_R0 (λ k, close_at cs (i + 1 - S n + k)) n) as ->.
  { pose proof (window_sum cs id (i + 1 - S n) n) as H.
    rewrite list_fmap_id in H. apply H. lia. }
  by replace (S n - 1)%nat with n by lia.
Qed.

Lemma rolling_std_period_1 (cs : list R) (i : nat) :
  (i < length cs)%nat → rolling_std 1 (Fin <$> cs) !! i = Some NaN.
Proof.
  intros Hi. unfold rolling_std.
  rewrite rolling_lookup by (rewrite length_fmap; lia).
  rewrite decide_False by lia. rewrite take_drop_fmap.
  destruct (lookup_lt_is_Some_2 cs i Hi) as [x Hx].
  replace (i + 1 - 1)%nat with i by lia.
  replace (take 1 (drop i cs)) with [x]
    by (by rewrite (drop_S _ _ _ Hx)).
  by rewrite window_std_single.
Qed.

(** ** Cells of the frame after [calculate_bollinger_bands] *)

Lemma with_bands_index close period std d :
  index (with_bands close period std d) = index d.
Proof. done. Qed.

Lemma with_bands_other_columns close period std d (c : string) :
  c ∉ indicator_columns →
  columns (with_bands close period std d) !! c = columns d !! c.
Proof.
  unfold indicator_columns. intros Hc. unfold with_bands, set_column. simpl.
  rewrite !lookup_insert_ne; [done|..]; intros <-; apply Hc; set_solver.
Qed.

Lemma with_bands_indicator_columns close period std d (c : string) :
  c ∈ indicator_columns →
  ∃ col, columns (with_bands close period std d) !! c = Some col
         ∧ length col = length close.
Proof.
  unfold indicator_columns, with_bands, set_column. simpl. intros Hc.
  assert (Hz : ∀ (f : fval → fval → fval) a b,
             length a = length close → length b = length close →
             length (zip_with f a b) = length close).
  { intros f a b Ha Hb. rewrite length_zip_with. lia. }
  assert (Hm : length (rolling_mean period close) = length close)
    by apply length_rolling.
  assert (Hs : length (rolling_std period close) = length close)
    by apply length_rolling.
  assert (Hk : length (series_scale std (rolling_std period close))
               = length close)
    by (unfold series_scale; by rewrite length_fmap).
  repeat (apply elem_of_cons in Hc as [->|Hc]);
    [..|by apply elem_of_nil in Hc];
    eexists; (split; [simplify_map_eq; reflexivity|]);
    unfold series_div, series_sub, series_add; auto.
Qed.

Lemma with_bands_cells close period std d i ma sd :
  rolling_mean period close !! i = Some ma →
  rolling_std period close !! i = Some sd →
  let upper := fadd ma (fmul std sd) in
  let lower := fsub ma (fmul std sd) in
  cell (with_bands close period std d) "SMA" i = Some ma
  ∧ cell (with_bands close period std d) "STD" i = Some sd
  ∧ cell (with_bands close period std d) "Upper_Band" i = Some upper
  ∧ cell (with_bands close period std d) "Lower_Band" i = Some lower
  ∧ cell (with_bands close period std d) "Band_Width" i
    = Some (fdiv (fsub upper lower) ma).
Proof.
  intros Hma Hsd. unfold cell, with_bands, set_column. simpl.
  simplify_map_eq.
  unfold series_div, series_sub, series_add, series_scale.
  rewrite !lookup_zip_with, !list_lookup_fmap, Hma, Hsd. done.
Qed.

(** ** The fetchers return frames with a full Close column *)

Lemma collect_inl {A} (xs : list (A + string)) (l : list A) :
  collect xs = inl l → xs = inl <$> l.
Proof.
  revert l. induction xs as [|[a|e] xs IH]; intros l H; simpl in H.
  - by simplify_eq.
  - destruct (collect xs) as [l'|e]; simplify_eq. by rewrite (IH l').
  - done.
Qed.

Lemma collect_length {A} (xs : list (A + string)) (l : list A) :
  collect xs = inl l → length l = length xs.
Proof. intros ->%collect_inl. by rewrite length_fmap. Qed.

Lemma sort_index_Permutation {A} (key : A → Z) (rows : list A) :
  sort_index key rows ≡ₚ rows.
Proof. apply merge_sort_Permutation. Qed.


Lemma twelve_frame_has_close rows d :
  twelve_frame rows = inl d → ∃ close, has_close d close.
Proof.
  unfold twelve_frame. intros H. repeat case_match; simplify_eq.
  eexists. split; [by simplify_map_eq|].
  unfold df_len. simpl.
  match goal with
  | Hc : collect (to_float ∘ tw_close ∘ snd <$> _) = inl _ |- _ =>
      apply collect_length in Hc; rewrite Hc
  end.
  by rewrite !length_fmap.
Qed.

Lemma frame_of_bars_has_close bs :
  has_close (frame_of_bars bs) (Close <$> bs).
Proof.
  split; [unfold frame_of_bars; by simplify_map_eq|].
  unfold df_len. simpl. by rewrite !length_fmap.
Qed.

Lemma yahoo_frame_has_close r d :
  yahoo_frame r = inl d → ∃ close, has_close d close.
Proof.
  unfold yahoo_frame. repeat case_match; try done.
  intros [= <-]. eexists. apply frame_of_bars_has_close.
Qed.

Lemma fetched_has_close v w d :
  fetched v w = inl d → ∃ close, has_close d close.
Proof.
  unfold fetched, twelve_data_outcome, yahoo_outcome.
  intros H. repeat case_match; simplify_eq;
    eauto using twelve_frame_has_close, yahoo_frame_has_close.
Qed.

(** ** Running [analyze_market] *)

Lemma returning_inl d s :
  returning (inl d) s
  = Some ((Some (fresh (dom (heap s))), None),
          {| heap := <[fresh (dom (heap s)) := d]> (heap s);
             trace := trace s |}).
Proof. done. Qed.

Lemma returning_inr e s : returning (inr e) s = Some ((None, Some e), s).
Proof. done. Qed.


Lemma len_Some s l d : heap s !! l = Some d → len l s = Some (df_len d, s).
Proof. intros H. unfold len. by rewrite H. Qed.

Lemma iloc_last_Some s l d name i x :
  heap s !! l = Some d → df_len d = S i → cell d name i = Some x →
  iloc_last l name s = Some (x, s).
Proof. intros H Hn Hx. unfold iloc_last. by rewrite H, Hn, Hx. Qed.

Lemma analyze_market_fetch_failed v w s e :
  fetched v w = inr e →
  analyze_market v w s
  = Some (error_result w ("Data fetch failed: " +:+ e),
          {| heap := heap s; trace := fetch_trace v w (trace s) |}).
Proof.
  unfold fetched, fetch_trace. intros H.
  destruct (twelve_data_outcome v w) as [d|e1] eqn:H1; [done|].
  unfold analyze_market, fetch_twelve_data, fetch_yahoo_fallback.
  destruct s, v; rewrite ?H1, H;
    rewrite (bind_Some _ _ _ _ _ (returning_inr e1 _)); reflexivity.
Qed.

(** Steps [analyze_market] through the fetch when a frame was obtained. *)
Ltac fetch_steps v w s d H :=
  unfold fetched, fetch_trace in *;
  unfold analyze_market, fetch_twelve_data, fetch_yahoo_fallback;
  let e1 := fresh "e1" in
  let H1 := fresh "H1" in
  destruct s as [h tr], v;
  (destruct (twelve_data_outcome _ w) as [?|e1] eqn:H1;
   [ injection H as ->; rewrite (bind_Some _ _ _ _ _ (returning_inl d _))
   | rewrite H; rewrite (bind_Some _ _ _ _ _ (returning_inr e1 _)) ]);
  cbn [heap trace dom];
  first [ erewrite (bind_Some (mret _)); [|reflexivity]
        | erewrite (bind_Some (_ ≫= _)); [|reflexivity] ];
  cbn [heap trace].

Lemma analyze_market_insufficient v w s d :
  fetched v w = inl d → (df_len d < BOLLINGER_PERIOD)%nat →
  analyze_market v w s
  = Some (error_result w ("Insufficient data: " +:+ pretty (df_len d) +:+ " bars"),
          {| heap := <[fresh (dom (heap s)) := d]> (heap s);
             trace := fetch_trace v w (trace s) |}).
Proof.
  intros H Hn.
  fetch_steps v w s d H;
    (erewrite (bind_Some (len _)); [|apply len_Some; apply lookup_insert_eq]);
    rewrite bool_decide_eq_true_2 by done; reflexivity.
Qed.

Lemma analyze_market_success v w s d close i p bw :
  fetched v w = inl d → has_close d close →
  df_len d = S i → (BOLLINGER_PERIOD ≤ S i)%nat →
  close !! i = Some p →
  cell (with_bands close BOLLINGER_PERIOD BOLLINGER_STD d) "Band_Width" i
    = Some bw →
  analyze_market v w s
  = Some (success_result w (evaluation v w p bw (S i)),
          {| heap := <[fresh (dom (heap s))
                       := with_bands close BOLLINGER_PERIOD BOLLINGER_STD d]>
                     (heap s);
             trace := fetch_trace v w (trace s) |}).
Proof.
  intros H [Hc Hlen] Hn Hp Hpi Hbw.
  assert (cell (with_bands close BOLLINGER_PERIOD BOLLINGER_STD d) "Close" i
          = Some p) as Hcl.
  { unfold cell. rewrite with_bands_other_columns, Hc; [done|].
    unfold indicator_columns. rewrite !elem_of_cons, elem_of_nil.
    intros Hin. repeat destruct Hin as [Hin|Hin]; done. }
  fetch_steps v w s d H;
    (erewrite (bind_Some (len _)); [|apply len_Some; apply lookup_insert_eq]);
    rewrite bool_decide_eq_false_2 by lia;
    (erewrite (bind_Some (calculate_bollinger_bands _ _ _));
     [|eapply calculate_bollinger_bands_run; [apply lookup_insert_eq|exact Hc]]);
    cbn [heap trace]; rewrite insert_insert_eq;
    (erewrite (bind_Some (iloc_last _ _));
     [|eapply iloc_last_Some; [apply lookup_insert_eq|exact Hn|exact Hcl]]);
    (erewrite (bind_Some (iloc_last _ _));
     [|eapply iloc_last_Some; [apply lookup_insert_eq|exact Hn|exact Hbw]]);
    (erewrite (bind_Some (len _)); [|apply len_Some; apply lookup_insert_eq]);
    unfold df_len in *; rewrite with_bands_index, Hn; reflexivity.
Qed.

Lemma band_width_cell close period std d i :
  (i < length close)%nat →
  ∃ bw, cell (with_bands close period std d) "Band_Width" i = Some bw.
Proof.
  intros Hi.
  pose proof (rolling_lookup period window_mean close i Hi) as Hm.
  pose proof (rolling_lookup period window_std close i Hi) as Hs.
  destruct (with_bands_cells close period std d i _ _ Hm Hs)
    as (_ & _ & _ & _ & Hbw).
  eauto.
Qed.

Lemma analyze_market_cases v w s :
  ∃ r s', analyze_market v w s = Some (r, s') ∧ analysis_case v w s r s'.
Proof.
  destruct (fetched v w) as [d|e] eqn:Hf.
  - destruct (decide (df_len d < BOLLINGER_PERIOD)%nat) as [Hn|Hn].
    + eexists _, _. split; [by apply analyze_market_insufficient|].
      by constructor.
    + destruct (fetched_has_close v w d Hf) as [close Hc].
      destruct (df_len d) as [|i] eqn:Hlen; [unfold BOLLINGER_PERIOD in Hn; lia|].
      assert (i < length close)%nat as Hi by (destruct Hc as [_ ->]; lia).
      destruct (lookup_lt_is_Some_2 close i Hi) as [p Hp].
      destruct (band_width_cell close BOLLINGER_PERIOD BOLLINGER_STD d i Hi)
        as [bw Hbw].
      eexists _, _. split.
      * eapply analyze_market_success; eauto. lia.
      * econstructor; eauto. lia.
  - eexists _, _. split; [by apply analyze_market_fetch_failed|].
    by constructor.
Qed.

(** ** Constant closes *)

Lemma close_at_constant (cs : list R) (c : R) (j : nat) :
  Forall (λ x, x = c) cs → (j < length cs)%nat → close_at cs j = c.
Proof.
  intros Hall Hj. unfold close_at. rewrite nth_lookup.
  destruct (lookup_lt_is_Some_2 cs j Hj) as [x Hx]. rewrite Hx. simpl.
  by apply (Forall_lookup_1 _ _ _ _ Hall Hx).
Qed.

Lemma mean_at_constant (cs : list R) (c : R) (period i : nat) :
  Forall (λ x, x = c) cs → (1 ≤ period)%nat →
  (period - 1 ≤ i < length cs)%nat →
  mean_at cs period i = c.
Proof.
  intros Hall Hp Hi. unfold mean_at.
  rewrite (sum_eq _ (λ _, c)).
  - rewrite sum_cte. replace (S (period - 1)) with period by lia.
    field. apply not_0_INR. lia.
  - intros k Hk. apply close_at_constant; [done|lia].
Qed.

Lemma sample_std_at_constant (cs : list R) (c : R) (period i : nat) :
  Forall (λ x, x = c) cs → (1 ≤ period)%nat →
  (period - 1 ≤ i < length cs)%nat →
  sample_std_at cs period i = 0.
Proof.
  intros Hall Hp Hi. unfold sample_std_at, sample_var_at.
  rewrite (mean_at_constant cs c) by done.
  rewrite (sum_eq _ (λ _, 0)).
  - rewrite sum_cte. unfold Rdiv. rewrite !Rmult_0_l. apply sqrt_0.
  - intros k Hk. rewrite (close_at_constant cs c) by (done || lia).
    unfold Rsqr. lra.
Qed.

Lemma constant_closes_band_width (cs : list R) (c k : R) (period i : nat) d :
  Forall (λ x, x = c) cs → c ≠ 0 →
  (2 ≤ period)%nat → (period - 1 ≤ i < length cs)%nat →
  cell (with_bands (Fin <$> cs) period (Fin k) d) "Band_Width" i
  = Some (Fin 0).
Proof.
  intros Hall Hc Hp Hi.
  pose proof (rolling_mean_at cs period i ltac:(lia) Hi) as Hm.
  pose proof (rolling_std_at cs period i Hp Hi) as Hs.
  rewrite (mean_at_constant cs c) in Hm by (done || lia).
  rewrite (sample_std_at_constant cs c) in Hs by (done || lia).
  destruct (with_bands_cells (Fin <$> cs) period (Fin k) d i _ _ Hm Hs)
    as (_ & _ & _ & _ & ->).
  cbn. destruct (Req_dec_T c 0) as [E|_]; [done|].
  f_equal. f_equal. by field.
Qed.

Lemma flt_zero_threshold (thr : R) : 0 < thr → flt (Fin 0) (Fin thr) = true.
Proof. intros Ht. unfold flt, Rltb. by destruct (Rlt_dec 0 thr). Qed.

Lemma SQUEEZE_THRESHOLD_pos (v : variant) : 0 < SQUEEZE_THRESHOLD v.
Proof. destruct v; unfold SQUEEZE_THRESHOLD; lra. Qed.

(** ** The band width is never [-inf] *)






(** ** Running the entry points *)

Lemma dispatches_fetch_trace v w tr :
  dispatches (fetch_trace v w tr) = dispatches tr.
Proof. unfold fetch_trace. by repeat case_match. Qed.

Lemma analysis_case_dispatches v w s r s' :
  analysis_case v w s r s' → dispatches (trace s') = dispatches (trace s).
Proof. intros []; apply dispatches_fetch_trace. Qed.

Lemma analysis_case_status v w s r s' :
  analysis_case v w s r s' →
  match status r with
  | StError => data r = None
  | StSuccess => ∃ d, data r = Some d
  end.
Proof. intros []; simpl; eauto. Qed.

(** Unfolds the monad operations so that a run on a known state computes. *)
Ltac run_M :=
  unfold the_data, send_trade_alert, send_telegram_message,
    get_last_alert_time, set_last_alert_time, emit, raise,
    mbind, M_bind, mret, M_ret in *;
  cbn [heap trace fst snd] in *.

Lemma configured_false w :
  configured w = false →
  negb (truthy (TELEGRAM_BOT_TOKEN w)) || negb (truthy (TELEGRAM_CHAT_ID w))
  = true.
Proof. unfold configured. by destruct (truthy _), (truthy _). Qed.

Lemma configured_true w :
  configured w = true →
  negb (truthy (TELEGRAM_BOT_TOKEN w)) || negb (truthy (TELEGRAM_CHAT_ID w))
  = false.
Proof. unfold configured. by destruct (truthy _), (truthy _). Qed.

Section cron_run.
Context (w : world) (s : state) (r : result) (s0 : state).
Hypothesis Hrun : analyze_market Cron w (triggered s) = Some (r, s0).

Lemma do_GET_error :
  status r = StError →
  do_GET w s = Some ((500%Z, r), s0).
Proof.
  intros Hst. unfold do_GET.
  erewrite (bind_Some (emit _)) by reflexivity.
  erewrite (bind_Some (analyze_market _ _)) by exact Hrun.
  by rewrite Hst.
Qed.

Lemma do_GET_no_signal d :
  status r = StSuccess → data r = Some d → signal d = false →
  do_GET w s
  = Some ((200%Z, r),
          {| heap := heap s0;
             trace := EvPrint (LogNoSignal (join_reasons (no_signal_reasons d)))
                      :: trace s0 |}).
Proof.
  intros Hst Hd Hsig. unfold do_GET.
  erewrite (bind_Some (emit _)) by reflexivity.
  erewrite (bind_Some (analyze_market _ _)) by exact Hrun.
  rewrite Hst. run_M. by rewrite Hd, Hsig.
Qed.

Lemma do_GET_signal d :
  status r = StSuccess → data r = Some d → signal d = true →
  ∃ r' s1,
    do_GET w s = Some ((200%Z, r'), s1)
    ∧ heap s1 = heap s0
    ∧ data r' = Some d
    ∧ dispatches (trace s1) = alert_events w d ++ dispatches (trace s0).
Proof.
  intros Hst Hd Hsig. unfold do_GET, alert_events.
  erewrite (bind_Some (emit _)) by reflexivity.
  erewrite (bind_Some (analyze_market _ _)) by exact Hrun.
  rewrite Hst. run_M. rewrite Hd, Hsig, Rminus_0_r.
  destruct (Rleb ALERT_COOLDOWN (now_ts w)); [|by eauto 10].
  destruct (configured w) eqn:Hcfg.
  - rewrite (configured_true w Hcfg).
    repeat case_match; simplify_eq; eauto 10.
  - rewrite (configured_false w Hcfg). eauto 10.
Qed.

End cron_run.

Lemma main_execution_not_configured w s :
  configured w = false →
  main_execution w s
  = Some (SysExit 1, {| heap := heap s; trace := EvPrint LogCritical :: trace s |}).
Proof.
  intros Hcfg. unfold main_execution. fold (configured w). by rewrite Hcfg.
Qed.

Section scheduler_run.
Context (w : world) (s : state) (r : result) (s0 : state).
Hypothesis Hcfg : configured w = true.
Hypothesis Hrun : analyze_market Scheduler w (triggered s) = Some (r, s0).

Lemma main_execution_error :
  status r = StError →
  main_execution w s
  = Some (Returned,
          {| heap := heap s0;
             trace := EvPrint (LogExecutionFailed (message r)) :: trace s0 |}).
Proof.
  intros Hst. unfold main_execution. fold (configured w).
  rewrite Hcfg. cbn [negb].
  erewrite (bind_Some (emit _)) by reflexivity.
  erewrite (bind_Some (analyze_market _ _)) by exact Hrun.
  by rewrite Hst.
Qed.

Lemma main_execution_no_signal d :
  status r = StSuccess → data r = Some d → signal d = false →
  main_execution w s
  = Some (Returned,
          {| heap := heap s0;
             trace := EvPrint (LogNoSignal (join_reasons (no_signal_reasons d)))
                      :: trace s0 |}).
Proof.
  intros Hst Hd Hsig. unfold main_execution. fold (configured w).
  rewrite Hcfg. cbn [negb].
  erewrite (bind_Some (emit _)) by reflexivity.
  erewrite (bind_Some (analyze_market _ _)) by exact Hrun.
  rewrite Hst. run_M. by rewrite Hd, Hsig.
Qed.

Lemma main_execution_signal d :
  status r = StSuccess → data r = Some d → signal d = true →
  ∃ s1,
    main_execution w s = Some (Returned, s1)
    ∧ heap s1 = heap s0
    ∧ dispatches (trace s1) = alert_events w d ++ dispatches (trace s0).
Proof.
  intros Hst Hd Hsig. unfold main_execution, alert_events.
  fold (configured w). rewrite Hcfg. cbn [negb].
  erewrite (bind_Some (emit _)) by reflexivity.
  erewrite (bind_Some (analyze_market _ _)) by exact Hrun.
  rewrite Hst. run_M. rewrite Hd, Hsig, Rminus_0_r.
  destruct (Rleb ALERT_COOLDOWN (now_ts w)); [|by eauto 10].
  rewrite (configured_true w Hcfg).
  repeat case_match; simplify_eq; eauto 10.
Qed.

End scheduler_run.

(** An error report ends the run: no dispatch, and the store is as
    [analyze_market] left it. *)
Lemma error_report_is_terminal v w s r s0 :
  analyze_market v w (triggered s) = Some (r, s0) →
  analysis_case v w (triggered s) r s0 →
  status r = StError →
  match v with
  | Cron =>
      ∃ s1, do_GET w s = Some ((500%Z, r), s1)
            ∧ heap s1 = heap s0
            ∧ dispatches (trace s1) = dispatches (trace s)
  | Scheduler =>
      ∃ x s1, main_execution w s = Some (x, s1)
              ∧ dispatches (trace s1) = dispatches (trace s)
              ∧ (configured w = true →
                 x = Returned ∧ heap s1 = heap s0
                 ∧ head (trace s1) = Some (EvPrint (LogExecutionFailed (message r))))
  end.
Proof.
  intros Hrun Hcase Hst.
  pose proof (analysis_case_dispatches _ _ _ _ _ Hcase) as Hdis.
  destruct v.
  - exists s0. split; [by apply do_GET_error|]. done.
  - destruct (configured w) eqn:Hcfg.
    + eexists _, _. split; [by eapply main_execution_error|].
      split; [exact Hdis|]. done.
    + eexists _, _. split; [by apply main_execution_not_configured|].
      done.
Qed.



(** ** The fetched series is sorted *)

#[global] Instance key_le_total {A} (key : A → Z) : Total (key_le key).
Proof. intros a b. unfold key_le. lia. Qed.

Lemma sort_index_Sorted {A} (key : A → Z) (rows : list A) :
  Sorted Z.le (key <$> sort_index key rows).
Proof.
  apply (Sorted_fmap key (key_le key) Z.le); [done|].
  apply (Sorted_merge_sort (key_le key)).
Qed.

Lemma twelve_frame_sorted rows d :
  twelve_frame rows = inl d → Sorted Z.le (index d).
Proof.
  unfold twelve_frame. intros H. repeat case_match; simplify_eq.
  simpl. apply sort_index_Sorted.
Qed.

Lemma yahoo_frame_bars r d :
  yahoo_frame r = inl d →
  d = frame_of_bars (sort_index ts (dropna (yahoo_rows r))).
Proof. unfold yahoo_frame. intros H. repeat case_match; by simplify_eq. Qed.

Lemma sorted_dropna_no_nan (rows : list bar) :
  Forall (λ b, has_nan b = false) (sort_index ts (dropna rows)).
Proof.
  rewrite sort_index_Permutation. unfold dropna.
  apply Forall_forall. intros b Hb. by apply list_elem_of_filter in Hb as [? _].
Qed.

Lemma frame_of_bars_columns bs c :
  c ∈ price_columns →
  ∃ col, columns (frame_of_bars bs) !! c = Some col
         ∧ length col = df_len (frame_of_bars bs).
Proof.
  unfold price_columns, frame_of_bars, df_len.
  rewrite !elem_of_cons, elem_of_nil. simpl.
  intros [->|[->|[->|[->|[]]]]]; eexists;
    (split; [by simplify_map_eq|]); by rewrite !length_fmap.
Qed.

Lemma twelve_frame_columns rows d c :
  twelve_frame rows = inl d → c ∈ price_columns →
  ∃ col, columns d !! c = Some col ∧ length col = df_len d.
Proof.
  unfold twelve_frame, price_columns, df_len. intros H.
  repeat case_match; simplify_eq.
  repeat match goal with
         | Hc : collect _ = inl _ |- _ => apply collect_length in Hc
         end.
  rewrite !elem_of_cons, elem_of_nil. simpl.
  intros [->|[->|[->|[->|[]]]]]; eexists;
    (split; [by simplify_map_eq|]); rewrite !length_fmap in *; congruence.
Qed.

(** ** The two files side by side *)






Lemma do_GET_dispatches w s r s0 :
  analyze_market Cron w (triggered s) = Some (r, s0) →
  analysis_case Cron w (triggered s) r s0 →
  ∃ out s1,
    do_GET w s = Some (out, s1)
    ∧ dispatches (trace s1) = run_dispatches w r ++ dispatches (trace s).
Proof.
  intros Hrun Hcase.
  pose proof (analysis_case_dispatches _ _ _ _ _ Hcase) as Hdis.
  cbn [triggered trace dispatches] in Hdis.
  pose proof (analysis_case_status _ _ _ _ _ Hcase) as Hst.
  unfold run_dispatches.
  destruct (status r) eqn:Hs.
  - rewrite Hst. eexists _, _. split; [by apply do_GET_error|done].
  - destruct Hst as [d Hd]. rewrite Hd. destruct (signal d) eqn:Hsig.
    + destruct (do_GET_signal w s r s0 Hrun d Hs Hd Hsig)
        as (r' & s1 & Hget & _ & _ & Hdp).
      eexists _, _. split; [exact Hget|]. by rewrite Hdp, Hdis.
    + eexists _, _. split; [by eapply do_GET_no_signal|done].
Qed.

Lemma main_execution_dispatches w s r s0 :
  analyze_market Scheduler w (triggered s) = Some (r, s0) →
  analysis_case Scheduler w (triggered s) r s0 →
  ∃ x s1,
    main_execution w s = Some (x, s1)
    ∧ dispatches (trace s1)
      = (if configured w then run_dispatches w r else [])
        ++ dispatches (trace s).
Proof.
  intros Hrun Hcase.
  pose proof (analysis_case_dispatches _ _ _ _ _ Hcase) as Hdis.
  cbn [triggered trace dispatches] in Hdis.
  pose proof (analysis_case_status _ _ _ _ _ Hcase) as Hst.
  unfold run_dispatches.
  destruct (configured w) eqn:Hcfg.
  2:{ eexists _, _. split; [by apply main_execution_not_configured|done]. }
  destruct (status r) eqn:Hs.
  - rewrite Hst. eexists _, _. split; [by apply main_execution_error|done].
  - destruct Hst as [d Hd]. rewrite Hd. destruct (signal d) eqn:Hsig.
    + destruct (main_execution_signal w s r s0 Hcfg Hrun d Hs Hd Hsig)
        as (s1 & Hmain & _ & Hdp).
      eexists _, _. split; [exact Hmain|]. by rewrite Hdp, Hdis.
    + eexists _, _. split; [by eapply main_execution_no_signal|done].
Qed.


(** * Properties of the specification *)

(** ** Cooldown *)

(** C1, as stated it fails: after [set_last_alert_time 1] the check at
    [1 + ALERT_COOLDOWN - 1] allows the dispatch instead of suppressing it. *)
Lemma C1_record_then_check_not_suppressed :
  (set_last_alert_time 1 ≫= λ _, should_dispatch (1 + ALERT_COOLDOWN - 1))
    init_state
  = Some (true, init_state).
Proof.
  unfold should_dispatch, set_last_alert_time, get_last_alert_time,
    ALERT_COOLDOWN, Rleb, mbind, M_bind, mret, M_ret.
  destruct (Rle_dec _ _) as [_|Hn]; [done|]. exfalso. apply Hn. lra.
Qed.

(** C1 (amended): [set_last_alert_time] stores nothing and
    [get_last_alert_time] always answers 0, so after recording a dispatch at
    any time [t] the check at [now] allows a dispatch exactly when
    [now >= ALERT_COOLDOWN], and the state is untouched; hence the check at
    [t + ALERT_COOLDOWN] passes for [t >= 0], and so does the one at
    [t + ALERT_COOLDOWN - 1] for [t >= 1]. *)
Theorem C1_cooldown_ignores_recorded_time (t now : R) (s : state) :
  (set_last_alert_time t ≫= λ _, should_dispatch now) s
  = Some (Rleb ALERT_COOLDOWN now, s)
  ∧ should_dispatch now s = Some (Rleb ALERT_COOLDOWN now, s)
  ∧ (Rleb ALERT_COOLDOWN now = true ↔ ALERT_COOLDOWN <= now)
  ∧ (0 <= t → Rleb ALERT_COOLDOWN (t + ALERT_COOLDOWN) = true)
  ∧ (1 <= t → Rleb ALERT_COOLDOWN (t + ALERT_COOLDOWN - 1) = true).
Proof.
  assert (Hs : should_dispatch now s = Some (Rleb ALERT_COOLDOWN now, s)).
  { unfold should_dispatch, get_last_alert_time, mbind, M_bind, mret, M_ret.
    by replace (now - 0) with now by lra. }
  split; [|split; [exact Hs|]].
  - rewrite <- Hs. reflexivity.
  - unfold Rleb, ALERT_COOLDOWN.
    repeat split; intros; destruct (Rle_dec _ _); try done; lra.
Qed.

(** ** Indicator engine *)

(** C10: [calculate_bollinger_bands] returns the very object it was given
    and changes it in place: the object now carries the five indicator
    columns, its index and every other column (Open, High, Low, Close among
    them) are as before, no object is created and no other object changes. *)
Theorem C10_bands_written_into_the_callers_frame
    (s : state) (df : loc) (d : DataFrame) (close : list fval)
    (period : nat) (std : fval) :
  heap s !! df = Some d →
  columns d !! "Close" = Some close →
  ∃ s' d',
    calculate_bollinger_bands df period std s = Some (df, s')
    ∧ heap s' !! df = Some d'
    ∧ (∀ l, l ≠ df → heap s' !! l = heap s !! l)
    ∧ dom (heap s') = dom (heap s)
    ∧ trace s' = trace s
    ∧ index d' = index d
    ∧ (∀ c, c ∈ ["Open"; "High"; "Low"; "Close"] →
            columns d' !! c = columns d !! c)
    ∧ (∀ c, c ∉ indicator_columns → columns d' !! c = columns d !! c)
    ∧ (∀ c, c ∈ indicator_columns →
            ∃ col, columns d' !! c = Some col ∧ length col = length close).
Proof.
  intros Hd Hc.
  eexists _, (with_bands close period std d).
  split; [by apply calculate_bollinger_bands_run|]. cbn [heap trace].
  split; [apply lookup_insert_eq|].
  split; [intros l Hl; by apply lookup_insert_ne|].
  split; [apply dom_insert_lookup_L; by eexists|].
  split; [done|]. split; [done|].
  split; [|split].
  - intros c Hin. apply with_bands_other_columns.
    unfold indicator_columns. rewrite !elem_of_cons, elem_of_nil in *.
    intros Hx. destruct Hin as [->|[->|[->|[->|[]]]]];
      repeat destruct Hx as [Hx|Hx]; done.
  - apply with_bands_other_columns.
  - apply with_bands_indicator_columns.
Qed.

(** C10 on a frame of two bars. *)
Lemma C10_two_bars_witness :
  ∃ s' d',
    calculate_bollinger_bands 0%nat 2 (Fin 2) two_bars_state = Some (0%nat, s')
    ∧ heap s' !! 0%nat = Some d'
    ∧ index d' = [60; 120]%Z
    ∧ columns d' !! "Close" = Some [Fin 1; Fin 3]
    ∧ is_Some (columns d' !! "Band_Width").
Proof.
  destruct (C10_bands_written_into_the_callers_frame
              two_bars_state 0%nat two_bars [Fin 1; Fin 3] 2 (Fin 2))
    as (s' & d' & Hrun & Hl & _ & _ & _ & Hidx & Hcols & _ & Hind).
  - apply lookup_singleton_eq.
  - reflexivity.
  - exists s', d'. split; [exact Hrun|]. split; [exact Hl|].
    split; [exact Hidx|]. split.
    + rewrite Hcols; [reflexivity|]. rewrite !elem_of_cons. auto.
    + destruct (Hind "Band_Width") as (col & -> & _); [|by eexists].
      unfold indicator_columns. rewrite !elem_of_cons. auto 10.
Defined.



(** The mean of the example window is what it should be: (1 + 3) / 2. *)
Example mean_at_two_bars : mean_at [1; 3] 2 1 = 2.
Proof. unfold mean_at, close_at. simpl. lra. Qed.

(** C6: when all closes equal a positive [c] (and the lookback is at least
    2, so that the sample deviation exists), Band_Width is exactly 0 in
    every row [i >= period-1], and 0 is below every positive threshold, the
    two configured ones included: the squeeze test [band_width < threshold]
    is true. *)
Theorem C6_equal_closes_zero_band_width
    (s : state) (df : loc) (d : DataFrame) (cs : list R) (c k : R)
    (period : nat) :
  heap s !! df = Some d →
  columns d !! "Close" = Some (Fin <$> cs) →
  Forall (λ x, x = c) cs → 0 < c →
  (2 ≤ period ≤ length cs)%nat →
  ∃ s' d',
    calculate_bollinger_bands df period (Fin k) s = Some (df, s')
    ∧ heap s' !! df = Some d'
    ∧ (∀ i, (period - 1 ≤ i < length cs)%nat →
         ∃ bw, cell d' "Band_Width" i = Some bw
               ∧ bw = Fin 0
               ∧ (∀ thr, 0 < thr → flt bw (Fin thr) = true)
               ∧ (∀ v, flt bw (Fin (SQUEEZE_THRESHOLD v)) = true)).
Proof.
  intros Hd Hc Hall Hpos [Hp1 Hp2].
  eexists _, (with_bands (Fin <$> cs) period (Fin k) d).
  split; [by apply calculate_bollinger_bands_run|]. cbn [heap trace].
  split; [apply lookup_insert_eq|].
  intros i Hi. exists (Fin 0).
  split; [apply (constant_closes_band_width cs c); [done|lra|done..]|].
  split; [done|]. split.
  - apply flt_zero_threshold.
  - intros v. apply flt_zero_threshold, SQUEEZE_THRESHOLD_pos.
Qed.

(** The same on the whole analysis: when the frame fetched has at least
    [BOLLINGER_PERIOD] rows and all its closes equal a positive [c], the
    report says band width 0 and squeeze. *)
Corollary flat_market_is_squeeze
    (v : variant) (w : world) (s : state) (d : DataFrame) (cs : list R) (c : R) :
  fetched v w = inl d →
  columns d !! "Close" = Some (Fin <$> cs) →
  Forall (λ x, x = c) cs → 0 < c →
  (BOLLINGER_PERIOD ≤ df_len d)%nat →
  ∃ r s' a,
    analyze_market v w s = Some (r, s')
    ∧ data r = Some a
    ∧ band_width a = Fin 0
    ∧ is_squeeze a = true.
Proof.
  intros Hf Hc Hall Hpos Hn.
  destruct (analyze_market_cases v w s) as (r & s' & Hrun & Hcase).
  exists r, s'.
  destruct Hcase as [e He|d' Hd' Hn'|d' close i p bw Hd' [Hc' Hlen] Hi Hp Hpi Hbw];
    rewrite Hf in *; simplify_eq; [lia|].
  rewrite length_fmap in Hlen. unfold BOLLINGER_STD in Hbw.
  rewrite (constant_closes_band_width cs c) in Hbw;
    [|done|lra|unfold BOLLINGER_PERIOD; lia
     |unfold BOLLINGER_PERIOD, df_len in *; lia].
  injection Hbw as <-.
  eexists. split; [exact Hrun|]. split; [reflexivity|].
  split; [reflexivity|].
  apply flt_zero_threshold, SQUEEZE_THRESHOLD_pos.
Qed.

(** C6 on twenty bars closing at 1, with the configured period and
    multiplier. *)
Lemma C6_flat_bars_witness :
  ∃ s' d',
    calculate_bollinger_bands 0%nat BOLLINGER_PERIOD BOLLINGER_STD
      flat_bars_state = Some (0%nat, s')
    ∧ heap s' !! 0%nat = Some d'
    ∧ cell d' "Band_Width" 19 = Some (Fin 0)
    ∧ flt (Fin 0) (Fin (SQUEEZE_THRESHOLD Scheduler)) = true.
Proof.
  destruct (C6_equal_closes_zero_band_width
              flat_bars_state 0%nat flat_bars (replicate 20 1) 1 2 20)
    as (s' & d' & Hrun & Hl & Hbw).
  - apply lookup_singleton_eq.
  - reflexivity.
  - by apply Forall_replicate.
  - lra.
  - simpl. lia.
  - exists s', d'. split; [exact Hrun|]. split; [exact Hl|].
    destruct (Hbw 19%nat) as (bw & Hcell & -> & _ & Hsq); [simpl; lia|].
    split; [exact Hcell|apply Hsq].
Defined.

(** With a lookback of 1 the sample deviation of a window does not exist:
    STD, and with it the band width, is NaN whatever the closes. *)
Example band_width_is_nan_for_period_1 :
  cell (with_bands [Fin 1; Fin 1] 1 (Fin 2) two_bars) "Band_Width" 1
  = Some NaN.
Proof.
  pose proof (rolling_mean_at [1; 1] 1 1 ltac:(lia) ltac:(simpl; lia)) as Hm.
  pose proof (rolling_std_period_1 [1; 1] 1 ltac:(simpl; lia)) as Hs.
  destruct (with_bands_cells (Fin <$> [1; 1]) 1 (Fin 2) two_bars 1 _ _ Hm Hs)
    as (_ & _ & _ & _ & Hbw).
  exact Hbw.
Qed.

(** ** Signal evaluation *)


(** ** Failures of the fetch *)

(** C4, as stated it fails: with both providers down the message of the
    error report holds the fallback provider's error only; the primary
    provider's error is not part of it. *)
Lemma C4_message_omits_primary_error :
  analyze_market Cron both_down init_state
  = Some (error_result both_down "Data fetch failed: fallback down", init_state)
  ∧ contains "fallback down" "Data fetch failed: fallback down" = true
  ∧ contains "primary down" "Data fetch failed: fallback down" = false.
Proof.
  split; [|split; reflexivity].
  by rewrite (analyze_market_fetch_failed Cron both_down init_state
                "fallback down").
Qed.

(** C4 (amended): [analyze_market] reports "Data fetch failed: ..." exactly
    when both providers fail; the report then has status error, no data, and
    its message is that prefix followed by the fallback provider's error
    alone; the run ends there, without a dispatch ([do_GET] answers 500 with
    the report, [main_execution] prints it and returns). *)
Theorem C4_fetch_failure_reports_fallback_error
    (v : variant) (w : world) (s : state) :
  ∃ r s0,
    analyze_market v w (triggered s) = Some (r, s0)
    ∧ ((∃ e, message r = "Data fetch failed: " +:+ e)
       ↔ (∃ e1 e2, twelve_data_outcome v w = inr e1
                   ∧ yahoo_outcome v w = inr e2))
    ∧ (∀ e1 e2,
         twelve_data_outcome v w = inr e1 → yahoo_outcome v w = inr e2 →
         status r = StError
         ∧ message r = "Data fetch failed: " +:+ e2
         ∧ data r = None
         ∧ match v with
           | Cron =>
               ∃ s1, do_GET w s = Some ((500%Z, r), s1)
                     ∧ dispatches (trace s1) = dispatches (trace s)
           | Scheduler =>
               ∃ x s1, main_execution w s = Some (x, s1)
                       ∧ dispatches (trace s1) = dispatches (trace s)
                       ∧ (configured w = true →
                          x = Returned
                          ∧ head (trace s1)
                            = Some (EvPrint (LogExecutionFailed (message r))))
           end).
Proof.
  destruct (analyze_market_cases v w (triggered s)) as (r & s0 & Hrun & Hcase).
  exists r, s0. split; [exact Hrun|].
  pose proof (error_report_is_terminal v w s r s0 Hrun Hcase) as Hterm.
  destruct Hcase as [e He|d Hd Hn|d close i p bw Hd Hc Hi Hp Hpi Hbw];
    unfold fetched in *; simpl in *.
  - destruct (twelve_data_outcome v w) as [?|e1] eqn:H1; [done|].
    split; [split; eauto|].
    intros e1' e2 _ H2. rewrite He in H2. injection H2 as <-.
    repeat split.
    destruct v.
    + destruct Hterm as (s1 & ? & ? & ?); eauto.
    + destruct Hterm as (x & s1 & ? & ? & Hc); [done|].
      exists x, s1. repeat split; try done; by apply Hc.
  - split.
    + split; [intros [e [=]]|].
      intros (e1 & e2 & H1 & H2). rewrite H1, H2 in Hd. done.
    + intros e1 e2 H1 H2. rewrite H1, H2 in Hd. done.
  - split.
    + split; [intros [e [=]]|].
      intros (e1 & e2 & H1 & H2). rewrite H1, H2 in Hd. done.
    + intros e1 e2 H1 H2. rewrite H1, H2 in Hd. done.
Qed.

(** C7: when the fetch yields a frame [d] with fewer rows than
    [BOLLINGER_PERIOD], [analyze_market] returns an error report
    "Insufficient data: <rows> bars" without data; the store holds [d] as it
    was fetched (no indicator column was computed), nothing was dispatched,
    and the entry point ends the run with that report: [do_GET] answers 500,
    [main_execution] prints the message and returns. *)
Theorem C7_insufficient_data_is_terminal
    (v : variant) (w : world) (s : state) (d : DataFrame) :
  fetched v w = inl d →
  (df_len d < BOLLINGER_PERIOD)%nat →
  ∃ r s0,
    analyze_market v w (triggered s) = Some (r, s0)
    ∧ status r = StError
    ∧ message r = "Insufficient data: " +:+ pretty (df_len d) +:+ " bars"
    ∧ data r = None
    ∧ heap s0 = <[fresh (dom (heap s)) := d]> (heap s)
    ∧ dispatches (trace s0) = dispatches (trace s)
    ∧ match v with
      | Cron =>
          ∃ s1, do_GET w s = Some ((500%Z, r), s1)
                ∧ heap s1 = heap s0
                ∧ dispatches (trace s1) = dispatches (trace s)
      | Scheduler =>
          ∃ x s1, main_execution w s = Some (x, s1)
                  ∧ dispatches (trace s1) = dispatches (trace s)
                  ∧ (configured w = true →
                     x = Returned ∧ heap s1 = heap s0
                     ∧ head (trace s1)
                       = Some (EvPrint (LogExecutionFailed (message r))))
      end.
Proof.
  intros Hd Hn.
  pose proof (analyze_market_insufficient v w (triggered s) d Hd Hn) as Hrun.
  assert (Hcase : analysis_case v w (triggered s)
            (error_result w
               ("Insufficient data: " +:+ pretty (df_len d) +:+ " bars"))
            {| heap := <[fresh (dom (heap (triggered s))) := d]>
                         (heap (triggered s));
               trace := fetch_trace v w (trace (triggered s)) |})
    by (by constructor).
  eexists _, _. split; [exact Hrun|].
  repeat split.
  - cbn [heap trace triggered]. rewrite dispatches_fetch_trace. done.
  - exact (error_report_is_terminal v w s _ _ Hrun Hcase eq_refl).
Qed.

(** C7 on a payload of two rows: the run ends with "Insufficient data: 2
    bars" and status 500. *)
Lemma C7_two_rows_witness :
  ∃ r s0 s1,
    analyze_market Cron dup_world (triggered init_state) = Some (r, s0)
    ∧ status r = StError
    ∧ message r = "Insufficient data: 2 bars"
    ∧ do_GET dup_world init_state = Some ((500%Z, r), s1)
    ∧ dispatches (trace s1) = [].
Proof.
  destruct (C7_insufficient_data_is_terminal Cron dup_world init_state
              {| index := [60; 60]%Z;
                 columns := <["Open" := [Fin 1; Fin 2]]>
                            (<["High" := [Fin 1; Fin 2]]>
                             (<["Low" := [Fin 1; Fin 2]]>
                              (<["Close" := [Fin 1; Fin 2]]> ∅))) |})
    as (r & s0 & Hrun & Hst & Hmsg & _ & _ & _ & s1 & Hget & _ & Hdis).
  - reflexivity.
  - unfold BOLLINGER_PERIOD, df_len. simpl. lia.
  - exists r, s0, s1. split; [exact Hrun|]. split; [exact Hst|].
    split; [exact Hmsg|]. split; [exact Hget|exact Hdis].
Defined.

(** ** Dispatch gating *)


(** ** Data source adapter *)

(** C5, as stated it fails: the payload is accepted and the frame returned
    has two rows with the timestamp 60; nothing removes duplicates. *)
Lemma C5_duplicate_timestamps_are_kept :
  ∃ df s' d,
    fetch_twelve_data Cron dup_world init_state = Some ((Some df, None), s')
    ∧ heap s' !! df = Some d
    ∧ index d = [60; 60]%Z
    ∧ ¬ NoDup (index d).
Proof.
  eexists _, _, _. split; [reflexivity|]. split; [apply lookup_insert_eq|].
  split; [reflexivity|].
  intros Hnd. apply NoDup_cons_1_1 in Hnd. apply Hnd. simpl. left.
Qed.

(** C5 (amended): a frame accepted from either provider has its index
    sorted ascending (rows sharing a timestamp are kept, not merged) and
    four price columns as long as the index; on the Yahoo path the rows
    returned are exactly the payload's rows without a null price, so no cell
    of the frame is NaN. *)
Theorem C5_accepted_series_sorted (v : variant) (w : world) (d : DataFrame) :
  twelve_data_outcome v w = inl d ∨ yahoo_outcome v w = inl d →
  Sorted Z.le (index d)
  ∧ (∀ c, c ∈ price_columns →
       ∃ col, columns d !! c = Some col ∧ length col = df_len d)
  ∧ (yahoo_outcome v w = inl d →
     ∃ code status_error r bs,
       yahoo_reply w = Responded code status_error (YChart r)
       ∧ d = frame_of_bars bs
       ∧ bs ≡ₚ dropna (yahoo_rows r)
       ∧ Forall (λ b, has_nan b = false) bs).
Proof.
  intros Hacc.
  assert (Hy : yahoo_outcome v w = inl d →
     ∃ code status_error r bs,
       yahoo_reply w = Responded code status_error (YChart r)
       ∧ d = frame_of_bars bs
       ∧ bs ≡ₚ dropna (yahoo_rows r)
       ∧ Forall (λ b, has_nan b = false) bs).
  { unfold yahoo_outcome. intros H.
    destruct (yahoo_reply w) as [e|code err body]; [done|].
    destruct (match v with Cron => _ | Scheduler => _ end); [done|].
    destruct body as [e|e|r]; try done.
    destruct (yahoo_frame r) as [d'|e] eqn:Hf; [|done].
    injection H as ->. apply yahoo_frame_bars in Hf.
    eexists code, err, r, _. split; [done|]. split; [exact Hf|].
    split; [apply sort_index_Permutation|apply sorted_dropna_no_nan]. }
  destruct Hacc as [Ht|Hyo].
  - assert (∃ rows, twelve_frame rows = inl d) as [rows Hrows].
    { unfold twelve_data_outcome in Ht. repeat case_match; simplify_eq; eauto. }
    split; [by eapply twelve_frame_sorted|].
    split; [intros c; by eapply twelve_frame_columns|exact Hy].
  - assert (∃ r, yahoo_frame r = inl d) as [r Hr].
    { unfold yahoo_outcome in Hyo. repeat case_match; simplify_eq; eauto. }
    apply yahoo_frame_bars in Hr. split; [|split; [|exact Hy]].
    + rewrite Hr. apply sort_index_Sorted.
    + rewrite Hr. apply frame_of_bars_columns.
Qed.

(** C5 (amended) on the payload with the repeated timestamp. *)
Lemma C5_dup_world_witness :
  ∃ d, twelve_data_outcome Cron dup_world = inl d
       ∧ Sorted Z.le (index d)
       ∧ index d = [60; 60]%Z.
Proof.
  eexists. split; [reflexivity|]. split; [|reflexivity].
  eapply (C5_accepted_series_sorted Cron dup_world). left. reflexivity.
Defined.

(** On the Twelve Data path no row is dropped: a null price stays in the
    frame as NaN, and a price that [float] cannot read fails the fetch. *)
Example twelve_null_price_is_kept :
  ∃ d, twelve_frame [mkTwelveRow (inl 60%Z) (Val (Fin 1)) (Val (Fin 1))
                                 (Val (Fin 1)) Null] = inl d
       ∧ index d = [60%Z]
       ∧ columns d !! "Close" = Some [NaN].
Proof. eexists. split; [reflexivity|]. split; reflexivity. Qed.

Example twelve_unreadable_price_fails_the_fetch :
  twelve_frame [mkTwelveRow (inl 60%Z) (Val (Fin 1)) (Val (Fin 1))
                            (Val (Fin 1)) (Bad "could not convert string to float: 'n/a'")]
  = inr "could not convert string to float: 'n/a'".
Proof. reflexivity. Qed.

(** ** The two files compared *)

Lemma wide_mean : mean_at wide_closes 20 19 = 10000.
Proof. unfold mean_at, close_at, wide_closes. simpl. lra. Qed.

Lemma wide_std : sample_std_at wide_closes 20 19 = 2.
Proof.
  unfold sample_std_at, sample_var_at. rewrite wide_mean.
  unfold close_at, wide_closes, Rsqr. simpl.
  match goal with |- sqrt ?v = _ => replace v with (Rsqr 2) end.
  - apply sqrt_Rsqr. lra.
  - unfold Rsqr. lra.
Qed.

Lemma wide_world_analysis (v : variant) (s : state) :
  ∃ s', analyze_market v wide_world s
        = Some (success_result wide_world
                  (evaluation v wide_world (Fin 10000) wide_band_width 20),
                s').
Proof.
  eexists.
  eapply (analyze_market_success v wide_world s _ (Fin <$> wide_closes) 19).
  - destruct v; reflexivity.
  - split; reflexivity.
  - reflexivity.
  - done.
  - reflexivity.
  - pose proof (rolling_mean_at wide_closes 20 19) as Hm.
    pose proof (rolling_std_at wide_closes 20 19) as Hs.
    rewrite wide_mean in Hm. rewrite wide_std in Hs.
    match goal with
    | |- cell (with_bands _ _ _ ?d) _ _ = _ =>
        destruct (with_bands_cells (Fin <$> wide_closes) BOLLINGER_PERIOD
                    BOLLINGER_STD d 19 _ _
                    (Hm ltac:(lia) ltac:(simpl; lia))
                    (Hs ltac:(lia) ltac:(simpl; lia)))
          as (_ & _ & _ & _ & ->)
    end.
    unfold wide_band_width, BOLLINGER_STD. cbn.
    destruct (Req_dec_T 10000 0) as [E|_]; [lra|].
    do 2 f_equal. lra.
Qed.

Lemma wide_signal_cron :
  signal (evaluation Cron wide_world (Fin 10000) wide_band_width 20) = true.
Proof.
  unfold evaluation, signal, wide_band_width, SQUEEZE_THRESHOLD, flt, Rltb.
  destruct (Rlt_dec _ _) as [_|Hn]; [reflexivity|]. exfalso. apply Hn. lra.
Qed.




(** ** The cooldown across two runs *)

(** A second run of [do_GET] that starts in the state the first one left,
    at the very same clock reading, dispatches again: each run adds the call
    of [send_trade_alert] and the POST. *)
Example second_run_dispatches_again :
  ∃ out1 s1 out2 s2,
    do_GET wide_world init_state = Some (out1, s1)
    ∧ do_GET wide_world s1 = Some (out2, s2)
    ∧ length (dispatches (trace s1)) = 2%nat
    ∧ length (dispatches (trace s2)) = 4%nat.
Proof.
  assert (Hrun : ∀ s, ∃ out s',
             do_GET wide_world s = Some (out, s')
             ∧ length (dispatches (trace s'))
               = (2 + length (dispatches (trace s)))%nat).
  { intros s.
    destruct (wide_world_analysis Cron (triggered s)) as [s0 H0].
    destruct (analyze_market_cases Cron wide_world (triggered s))
      as (r & s0' & Hr & Hcase).
    rewrite H0 in Hr. simplify_eq.
    destruct (do_GET_dispatches wide_world s _ _ H0 Hcase)
      as (out & s' & Hget & Hdis).
    exists out, s'. split; [exact Hget|]. rewrite Hdis.
    unfold run_dispatches. cbn [data success_result].
    rewrite wide_signal_cron. unfold alert_events, Rleb, ALERT_COOLDOWN.
    destruct (Rle_dec _ _) as [_|Hn]; [reflexivity|].
    exfalso. apply Hn. simpl. lra. }
  destruct (Hrun init_state) as (out1 & s1 & H1 & L1).
  destruct (Hrun s1) as (out2 & s2 & H2 & L2).
  exists out1, s1, out2, s2. rewrite L2, L1. done.
Qed.

(** * Further properties of the code *)

(** ** Twelve Data frames *)

Lemma collect_fmap_inl {A} (l : list A) : collect (inl <$> l) = inl l.
Proof. induction l as [|a l IH]; [done|]. rewrite fmap_cons. simpl. by rewrite IH. Qed.

Lemma collect_is_inl {A} (xs : list (A + string)) :
  (∃ l, collect xs = inl l) ↔ Forall (λ x, ∃ a, x = inl a) xs.
Proof.
  split.
  - intros [l ->%collect_inl]. apply Forall_fmap, Forall_true. eauto.
  - induction 1 as [|x xs [a ->] _ [l IH]]; [by exists []|].
    exists (a :: l). simpl. by rewrite IH.
Qed.

Lemma collect_to_float {A} (f : A → field fval) (l : list A) (o : list fval) :
  collect (to_float ∘ f <$> l) = inl o → o = price_of ∘ f <$> l.
Proof.
  revert o. induction l as [|a l IH]; intros o H; simpl in H.
  - by simplify_eq.
  - destruct (f a) eqn:Hf; simpl in H; try done;
      destruct (collect _) as [o'|]; simplify_eq;
      rewrite fmap_cons; simpl; rewrite Hf; simpl; by rewrite <- (IH o').
Qed.

Lemma collect_to_float_is_inl {A} (f : A → field fval) (l : list A) :
  (∃ o, collect (to_float ∘ f <$> l) = inl o) ↔ Forall (λ a, ∀ e, f a ≠ Bad e) l.
Proof.
  rewrite collect_is_inl, Forall_fmap. apply Forall_iff. intros a. simpl.
  destruct (f a); simpl; split; try done; eauto.
  - intros [? [=]].
  - intros H. by destruct (H e).
Qed.

Lemma dated_bars rows dated :
  collect (with_datetime <$> rows) = inl dated →
  dated_bar <$> dated = twelve_bar <$> rows.
Proof.
  revert dated. induction rows as [|r rows IH]; intros dated H; simpl in H.
  - by simplify_eq.
  - unfold with_datetime at 1 in H.
    destruct (tw_datetime r) as [t|e] eqn:Ht; [|done].
    destruct (collect _) as [dated'|] eqn:Hc; simplify_eq.
    rewrite !fmap_cons, (IH dated') by done.
    f_equal. unfold dated_bar, twelve_bar. simpl. by rewrite Ht.
Qed.

Lemma twelve_frame_unfold r rows :
  twelve_frame (r :: rows)
  = match collect (with_datetime <$> r :: rows) with
    | inr e => inr e
    | inl dated =>
        let sorted := sort_index fst dated in
        match collect (to_float ∘ (tw_open ∘ snd) <$> sorted),
              collect (to_float ∘ (tw_high ∘ snd) <$> sorted),
              collect (to_float ∘ (tw_low ∘ snd) <$> sorted),
              collect (to_float ∘ (tw_close ∘ snd) <$> sorted) with
        | inl o, inl h, inl l, inl c =>
            inl {| index := fst <$> sorted;
                   columns := <["Open" := o]> (<["High" := h]>
                              (<["Low" := l]> (<["Close" := c]> ∅))) |}
        | inr e, _, _, _ | _, inr e, _, _ | _, _, inr e, _ | _, _, _, inr e =>
            inr e
        end
    end.
Proof. reflexivity. Qed.

Lemma frame_of_dated_bars (sorted : list (Z * twelve_row)) :
  frame_of_bars (dated_bar <$> sorted)
  = {| index := fst <$> sorted;
       columns := <["Open" := price_of ∘ (tw_open ∘ snd) <$> sorted]>
                  (<["High" := price_of ∘ (tw_high ∘ snd) <$> sorted]>
                   (<["Low" := price_of ∘ (tw_low ∘ snd) <$> sorted]>
                    (<["Close" := price_of ∘ (tw_close ∘ snd) <$> sorted]> ∅))) |}.
Proof. unfold frame_of_bars. by rewrite <- !list_fmap_compose. Qed.

Lemma twelve_frame_bars (rows : list twelve_row) (d : DataFrame) :
  twelve_frame rows = inl d →
  ∃ dated, collect (with_datetime <$> rows) = inl dated
           ∧ d = frame_of_bars (dated_bar <$> sort_index fst dated).
Proof.
  destruct rows as [|r rows]; [done|]. rewrite twelve_frame_unfold.
  destruct (collect (with_datetime <$> _)) as [dated|] eqn:Hd;
    cbv beta iota zeta; [|done].
  destruct (collect (_ ∘ (tw_open ∘ _) <$> _)) as [o|] eqn:Ho;
    [|by repeat case_match].
  destruct (collect (_ ∘ (tw_high ∘ _) <$> _)) as [h|] eqn:Hh;
    [|by repeat case_match].
  destruct (collect (_ ∘ (tw_low ∘ _) <$> _)) as [l|] eqn:Hl;
    [|by repeat case_match].
  destruct (collect (_ ∘ (tw_close ∘ _) <$> _)) as [c|] eqn:Hc; [|done].
  apply collect_to_float in Ho, Hh, Hl, Hc. subst o h l c.
  intros [= <-]. exists dated. split; [done|].
  by rewrite frame_of_dated_bars.
Qed.

(** X1: an accepted Twelve Data payload comes back whole: the frame is
    made of exactly the payload's rows (each timestamp with its own four
    prices, a null price as NaN), none dropped, none added, in ascending
    order of the timestamp. *)
Theorem X1_twelve_frame_keeps_every_row (rows : list twelve_row) (d : DataFrame) :
  twelve_frame rows = inl d →
  ∃ bs, d = frame_of_bars bs
        ∧ bs ≡ₚ twelve_bar <$> rows
        ∧ Sorted Z.le (ts <$> bs)
        ∧ df_len d = length rows.
Proof.
  intros (dated & Hd & ->)%twelve_frame_bars.
  exists (dated_bar <$> sort_index fst dated).
  split; [done|].
  split; [by rewrite sort_index_Permutation, (dated_bars _ _ Hd)|].
  split.
  - rewrite <- list_fmap_compose. apply sort_index_Sorted.
  - unfold df_len, frame_of_bars. simpl.
    rewrite !length_fmap, sort_index_Permutation.
    apply collect_length in Hd. by rewrite Hd, length_fmap.
Qed.

Lemma dated_rows rows dated :
  collect (with_datetime <$> rows) = inl dated → snd <$> dated = rows.
Proof.
  revert dated. induction rows as [|r rows IH]; intros dated H; simpl in H.
  - by simplify_eq.
  - unfold with_datetime at 1 in H.
    destruct (tw_datetime r) as [t|e]; [|done].
    destruct (collect _) as [dated'|] eqn:Hc; simplify_eq.
    by rewrite fmap_cons, (IH dated').
Qed.

Lemma sorted_prices_readable (f : twelve_row → field fval)
    (rows : list twelve_row) (dated : list (Z * twelve_row)) :
  snd <$> dated = rows →
  Forall (λ p, ∀ e, (f ∘ snd) p ≠ Bad e) (sort_index fst dated)
  ↔ Forall (λ r, ∀ e, f r ≠ Bad e) rows.
Proof.
  intros <-. rewrite sort_index_Permutation, Forall_fmap. done.
Qed.

(** X2: Twelve Data's ["values"] is accepted exactly when it is not empty,
    every [datetime] can be read and no price is an unreadable string; an
    empty list, one bad date or one bad price fails the whole fetch. *)
Theorem X2_twelve_frame_accepts_readable_rows (rows : list twelve_row) :
  (∃ d, twelve_frame rows = inl d) ↔ rows ≠ [] ∧ Forall readable rows.
Proof.
  destruct rows as [|r rows].
  { split; [by intros [d [=]]|by intros [[] _]]. }
  rewrite twelve_frame_unfold. cbv zeta.
  assert (Hdates : (∃ dated, collect (with_datetime <$> r :: rows) = inl dated)
                   ↔ Forall (λ r, ∃ t, tw_datetime r = inl t) (r :: rows)).
  { rewrite collect_is_inl, Forall_fmap. apply Forall_iff. intros r'.
    unfold with_datetime. simpl.
    destruct (tw_datetime r'); split; intros [? ?]; simplify_eq; eauto. }
  unfold readable. rewrite !Forall_and.
  destruct (collect (with_datetime <$> _)) as [dated|e] eqn:Hd.
  2:{ split; [by intros [d [=]]|].
      intros (_ & Hall & _). apply Hdates in Hall as [? [=]]. }
  pose proof (dated_rows _ _ Hd) as Hsnd.
  pose proof (collect_to_float_is_inl (tw_open ∘ snd) (sort_index fst dated))
    as Ho.
  pose proof (collect_to_float_is_inl (tw_high ∘ snd) (sort_index fst dated))
    as Hh.
  pose proof (collect_to_float_is_inl (tw_low ∘ snd) (sort_index fst dated))
    as Hl.
  pose proof (collect_to_float_is_inl (tw_close ∘ snd) (sort_index fst dated))
    as Hc.
  rewrite (sorted_prices_readable tw_open _ _ Hsnd) in Ho.
  rewrite (sorted_prices_readable tw_high _ _ Hsnd) in Hh.
  rewrite (sorted_prices_readable tw_low _ _ Hsnd) in Hl.
  rewrite (sorted_prices_readable tw_close _ _ Hsnd) in Hc.
  split.
  - intros [d H]. split; [done|]. split; [apply Hdates; eauto|].
    destruct (collect (_ ∘ (tw_open ∘ _) <$> _)) as [o|];
      [|by repeat case_match].
    destruct (collect (_ ∘ (tw_high ∘ _) <$> _)) as [h|];
      [|by repeat case_match].
    destruct (collect (_ ∘ (tw_low ∘ _) <$> _)) as [l|];
      [|by repeat case_match].
    destruct (collect (_ ∘ (tw_close ∘ _) <$> _)) as [c|]; [|done].
    repeat split; [apply Ho|apply Hh|apply Hl|apply Hc]; eauto.
  - intros (_ & _ & H1 & H2 & H3 & H4).
    apply Ho in H1 as [o ->]. apply Hh in H2 as [h ->].
    apply Hl in H3 as [l ->]. apply Hc in H4 as [c ->]. eauto.
Qed.

(** ** The order of the payload does not matter *)

#[global] Instance key_le_trans {A} (key : A → Z) : Transitive (key_le key).
Proof. intros a b c. unfold key_le. lia. Qed.

Lemma NoDup_fmap_inj_on {A B} (f : A → B) (l : list A) (x y : A) :
  NoDup (f <$> l) → x ∈ l → y ∈ l → f x = f y → x = y.
Proof.
  induction l as [|a l IH]; intros Hnd Hx Hy Hf.
  - by apply elem_of_nil in Hx.
  - rewrite fmap_cons in Hnd. apply NoDup_cons in Hnd as [Hna Hnd].
    apply elem_of_cons in Hx as [->|Hx], Hy as [->|Hy]; [done|..|by apply IH].
    + destruct Hna. rewrite Hf. by apply list_elem_of_fmap_2.
    + destruct Hna. rewrite <- Hf. by apply list_elem_of_fmap_2.
Qed.

Lemma sort_index_unique {A} (key : A → Z) (l1 l2 : list A) :
  l1 ≡ₚ l2 → NoDup (key <$> l1) → sort_index key l1 = sort_index key l2.
Proof.
  intros Hp Hnd.
  apply (Sorted_unique_strong (key_le key)).
  - intros x1 x2 H1 H2 H12 H21.
    rewrite sort_index_Permutation in H1.
    rewrite sort_index_Permutation, <- Hp in H2.
    apply (NoDup_fmap_inj_on key l1); [done..|]. unfold key_le in *. lia.
  - apply (Sorted_merge_sort (key_le key)).
  - apply (Sorted_merge_sort (key_le key)).
  - by rewrite !sort_index_Permutation.
Qed.

Lemma collect_Permutation {A} (xs xs' : list (A + string)) (l : list A) :
  xs ≡ₚ xs' → collect xs = inl l → ∃ l', collect xs' = inl l' ∧ l ≡ₚ l'.
Proof.
  intros Hp. revert l.
  induction Hp as [|x xs xs' _ IH|x y xs|xs xs' xs'' _ IH1 _ IH2]; intros l H.
  - eauto.
  - simpl in *. destruct x as [a|]; [|done].
    destruct (collect xs) as [l0|]; simplify_eq.
    destruct (IH l0 eq_refl) as (l0' & -> & Hl). eexists. split; [done|].
    by constructor.
  - simpl in *. destruct y as [b|]; [|done]. destruct x as [a|]; [|done].
    destruct (collect xs) as [l0|]; simplify_eq.
    eexists. split; [done|]. apply perm_swap.
  - destruct (IH1 l H) as (l' & H' & Hl').
    destruct (IH2 l' H') as (l'' & H'' & Hl'').
    exists l''. split; [done|]. by etrans.
Qed.

(** X3: when the timestamps of an accepted Twelve Data payload are all
    different, the frame does not depend on the order in which the provider
    lists the rows: every reordering of the payload gives the same frame. *)
Theorem X3_twelve_frame_ignores_payload_order
    (rows rows' : list twelve_row) (d : DataFrame) :
  twelve_frame rows = inl d →
  NoDup (index d) →
  rows' ≡ₚ rows →
  twelve_frame rows' = inl d.
Proof.
  intros H Hnd Hp.
  destruct rows as [|r rows]; [done|].
  destruct rows' as [|r' rows'];
    [by apply Permutation_nil_cons in Hp|].
  rewrite twelve_frame_unfold in *.
  destruct (collect (with_datetime <$> r :: rows)) as [dated|] eqn:Hd; [|done].
  assert (with_datetime <$> r :: rows ≡ₚ with_datetime <$> r' :: rows') as Hpw
    by (by rewrite Hp).
  destruct (collect_Permutation _ _ _ Hpw Hd) as (dated' & -> & Hpd).
  cbv zeta in *.
  assert (NoDup (fst <$> dated)) as Hnd'.
  { repeat case_match; simplify_eq. simpl in Hnd.
    by rewrite sort_index_Permutation in Hnd. }
  by rewrite <- (sort_index_unique fst dated dated' Hpd Hnd').
Qed.

(** X1 on two rows listed newest first. *)
Lemma X1_two_rows_witness :
  ∃ bs, two_bars = frame_of_bars bs
        ∧ bs ≡ₚ twelve_bar <$> rows_newest_first
        ∧ Sorted Z.le (ts <$> bs)
        ∧ df_len two_bars = 2%nat.
Proof.
  apply (X1_twelve_frame_keeps_every_row rows_newest_first two_bars).
  reflexivity.
Defined.

(** X3 on the same two rows listed oldest first. *)
Lemma X3_two_rows_witness : twelve_frame rows_oldest_first = inl two_bars.
Proof.
  apply (X3_twelve_frame_ignores_payload_order rows_newest_first).
  - reflexivity.
  - simpl. apply NoDup_cons. split.
    + rewrite elem_of_cons, elem_of_nil. intros [?|[]]. done.
    + apply NoDup_singleton.
  - apply reverse_Permutation.
Defined.

(** ** Yahoo frames *)





(** ** Which provider answers *)

Lemma bind_congr {A B} (m m' : M A) (f : A → M B) (s : state) :
  m s = m' s → (m ≫= f) s = (m' ≫= f) s.
Proof. intros H. unfold mbind, M_bind. by rewrite H. Qed.

Lemma analyze_market_primary_only v w y s d :
  twelve_data_outcome v w = inl d →
  analyze_market v (with_yahoo_reply y w) s = analyze_market v w s.
Proof.
  intros H. unfold analyze_market, fetch_twelve_data.
  change (twelve_data_outcome v (with_yahoo_reply y w))
    with (twelve_data_outcome v w).
  rewrite H, !(bind_Some _ _ _ _ _ (returning_inl d s)). reflexivity.
Qed.

(** X5: once the primary provider has delivered a frame, the fallback
    provider plays no part: whatever Yahoo would answer, the analysis and
    the whole run ([do_GET], [main_execution]) are the same, also when the
    primary frame is too short to be analysed. *)
Theorem X5_fallback_irrelevant_after_primary_success
    (v : variant) (w : world) (y : http_result yahoo_json) (s : state)
    (d : DataFrame) :
  twelve_data_outcome v w = inl d →
  analyze_market v (with_yahoo_reply y w) s = analyze_market v w s
  ∧ match v with
    | Cron => do_GET (with_yahoo_reply y w) s = do_GET w s
    | Scheduler => main_execution (with_yahoo_reply y w) s = main_execution w s
    end.
Proof.
  intros H. split; [by eapply analyze_market_primary_only|].
  destruct v.
  - unfold do_GET.
    rewrite !(bind_Some (emit _) _ s tt (triggered s)) by reflexivity.
    apply bind_congr. by eapply analyze_market_primary_only.
  - unfold main_execution. simpl.
    destruct (negb _); [reflexivity|].
    rewrite !(bind_Some (emit _) _ s tt (triggered s)) by reflexivity.
    apply bind_congr. by eapply analyze_market_primary_only.
Qed.

(** X5 on the payload of two rows and a Yahoo that answers nonsense. *)
Lemma X5_dup_world_witness :
  analyze_market Cron (with_yahoo_reply (Responded 200 "" (YInvalid "bad"))
                         dup_world) init_state
  = analyze_market Cron dup_world init_state
  ∧ do_GET (with_yahoo_reply (Responded 200 "" (YInvalid "bad")) dup_world)
      init_state
    = do_GET dup_world init_state.
Proof.
  eapply (X5_fallback_irrelevant_after_primary_success Cron dup_world).
  reflexivity.
Defined.

(** ** HTTP status lines *)

Lemma twelve_outcome_cron_restatus c1 e1 c2 e2 w :
  twelve_data_outcome Cron (with_provider_status c1 e1 c2 e2 w)
  = twelve_data_outcome Cron w.
Proof. unfold twelve_data_outcome. simpl. by destruct (twelve_reply w). Qed.

Lemma yahoo_outcome_cron_restatus c1 e1 c2 e2 w :
  yahoo_outcome Cron (with_provider_status c1 e1 c2 e2 w)
  = yahoo_outcome Cron w.
Proof. unfold yahoo_outcome. simpl. by destruct (yahoo_reply w). Qed.

Lemma analyze_market_cron_restatus c1 e1 c2 e2 w s :
  analyze_market Cron (with_provider_status c1 e1 c2 e2 w) s
  = analyze_market Cron w s.
Proof.
  unfold analyze_market, fetch_twelve_data, fetch_yahoo_fallback.
  rewrite twelve_outcome_cron_restatus, yahoo_outcome_cron_restatus.
  reflexivity.
Qed.

(** X6: cron.py never looks at the HTTP status of a provider's answer: put
    any status line (a 404, a 500) on the two answers and [analyze_market]
    and [do_GET] do exactly the same, so an error page whose body parses is
    used like a normal answer. *)
Theorem X6_cron_ignores_provider_status
    (c1 c2 : Z) (e1 e2 : string) (w : world) (s : state) :
  analyze_market Cron (with_provider_status c1 e1 c2 e2 w) s
  = analyze_market Cron w s
  ∧ do_GET (with_provider_status c1 e1 c2 e2 w) s = do_GET w s.
Proof.
  split; [apply analyze_market_cron_restatus|].
  unfold do_GET.
  rewrite !(bind_Some (emit _) _ s tt (triggered s)) by reflexivity.
  apply bind_congr, analyze_market_cron_restatus.
Qed.

(** X7: alert_scheduler.py treats a 4xx/5xx answer as a failed fetch
    whatever its body holds: when both providers answer with such a status
    the run ends with the error report "Data fetch failed: Yahoo fetch
    failed: <HTTP error of the fallback>", with no data and no dispatch. *)
Theorem X7_scheduler_rejects_error_status
    (w : world) (s : state) (c1 c2 : Z) (e1 e2 : string)
    (b1 : twelve_json) (b2 : yahoo_json) :
  twelve_reply w = Responded c1 e1 b1 →
  yahoo_reply w = Responded c2 e2 b2 →
  is_error_status c1 = true → is_error_status c2 = true →
  ∃ r s0 x s1,
    analyze_market Scheduler w (triggered s) = Some (r, s0)
    ∧ status r = StError
    ∧ message r = "Data fetch failed: Yahoo fetch failed: " +:+ e2
    ∧ data r = None
    ∧ heap s0 = heap s
    ∧ head (trace s0) = Some (EvPrint (LogTwelveFailed ("Request failed: " +:+ e1)))
    ∧ main_execution w s = Some (x, s1)
    ∧ dispatches (trace s1) = dispatches (trace s).
Proof.
  intros Ht Hy H1 H2.
  assert (Htw : twelve_data_outcome Scheduler w = inr ("Request failed: " +:+ e1)).
  { unfold twelve_data_outcome. by rewrite Ht, H1. }
  assert (Hya : yahoo_outcome Scheduler w = inr ("Yahoo fetch failed: " +:+ e2)).
  { unfold yahoo_outcome. by rewrite Hy, H2. }
  assert (Hf : fetched Scheduler w = inr ("Yahoo fetch failed: " +:+ e2)).
  { unfold fetched. by rewrite Htw. }
  pose proof (analyze_market_fetch_failed Scheduler w (triggered s) _ Hf) as Hrun.
  assert (Hcase : analysis_case Scheduler w (triggered s)
            (error_result w ("Data fetch failed: " +:+ ("Yahoo fetch failed: " +:+ e2)))
            {| heap := heap (triggered s);
               trace := fetch_trace Scheduler w (trace (triggered s)) |})
    by (by constructor).
  destruct (main_execution_dispatches w s _ _ Hrun Hcase)
    as (x & s1 & Hmain & Hdis).
  eexists _, _, x, s1. split; [exact Hrun|].
  split; [done|]. split; [done|]. split; [done|]. split; [done|].
  split; [cbn [trace]; unfold fetch_trace; by rewrite Htw|].
  split; [exact Hmain|].
  rewrite Hdis. unfold run_dispatches. simpl. by destruct (configured w).
Qed.

(** ** What the analysis reports *)

(** X8: [analyze_market] reports success exactly when the provider that
    answered (the primary one, else the fallback) delivered at least
    [BOLLINGER_PERIOD] bars; success comes with data and an empty message,
    an error with no data and a message; [bars_analyzed] is the number of
    rows of the fetched frame. *)
Theorem X8_analysis_succeeds_iff_enough_bars
    (v : variant) (w : world) (s : state) :
  ∃ r s',
    analyze_market v w s = Some (r, s')
    ∧ (status r = StSuccess
       ↔ ∃ d, fetched v w = inl d ∧ (BOLLINGER_PERIOD ≤ df_len d)%nat)
    ∧ (status r = StSuccess ↔ is_Some (data r))
    ∧ (status r = StSuccess ↔ message r = "")
    ∧ (∀ a, data r = Some a →
         (BOLLINGER_PERIOD ≤ bars_analyzed a)%nat
         ∧ ∃ d, fetched v w = inl d ∧ bars_analyzed a = df_len d).
Proof.
  destruct (analyze_market_cases v w s) as (r & s' & Hrun & Hcase).
  exists r, s'. split; [exact Hrun|].
  destruct Hcase as [e He|d Hd Hn|d close i p bw Hd Hc Hi Hp Hpi Hbw];
    cbn [status data message error_result success_result].
  - split; [split; [done|]|].
    { intros (d & Hd & _). by rewrite He in Hd. }
    split; [split; [done|by intros [? [=]]]|].
    split; [split; [done|intros [=]]|done].
  - split; [split; [done|]|].
    { intros (d' & Hd' & Hn'). rewrite Hd in Hd'. simplify_eq. lia. }
    split; [split; [done|by intros [? [=]]]|].
    split; [split; [done|intros [=]]|done].
  - split; [split; [|done]|].
    { intros _. exists d. split; [done|]. lia. }
    split; [split; [by eauto|done]|].
    split; [done|].
    intros a [= <-]. simpl. split; [done|]. eauto.
Qed.

Lemma fetched_frame_of_bars v w d :
  fetched v w = inl d →
  ∃ bs, d = frame_of_bars bs ∧ Sorted Z.le (ts <$> bs).
Proof.
  intros H.
  assert ((∃ rows, twelve_frame rows = inl d) ∨ (∃ r, yahoo_frame r = inl d))
    as [[rows Hr]|[r Hr]].
  { unfold fetched, twelve_data_outcome, yahoo_outcome in H.
    repeat case_match; simplify_eq; eauto. }
  - apply twelve_frame_bars in Hr as (dated & _ & ->).
    eexists. split; [done|].
    rewrite <- list_fmap_compose. apply sort_index_Sorted.
  - apply yahoo_frame_bars in Hr as ->.
    eexists. split; [done|]. apply sort_index_Sorted.
Qed.

Lemma sorted_last_is_greatest (bs : list bar) (b : bar) :
  Sorted Z.le (ts <$> bs) → last bs = Some b →
  Forall (λ b', (ts b' ≤ ts b)%Z) bs.
Proof.
  intros Hs Hl. apply last_Some in Hl as [bs' ->].
  apply Sorted_StronglySorted in Hs; [|intros ???; lia].
  rewrite fmap_app in Hs. apply StronglySorted_app in Hs as (Hle & _ & _).
  apply Forall_app. split.
  - apply Forall_forall. intros b' Hb'. apply Hle.
    + by apply list_elem_of_fmap_2.
    + simpl. apply list_elem_of_singleton. done.
  - apply Forall_singleton. lia.
Qed.

(** X9: the price of a successful analysis is the close of the newest bar:
    the fetched frame consists of bars in ascending order of their
    timestamps, and [price] is the close of the last one, whose timestamp no
    other bar exceeds, whatever the order in which the provider sent them. *)
Theorem X9_price_is_the_latest_close (v : variant) (w : world) (s : state) :
  ∃ r s',
    analyze_market v w s = Some (r, s')
    ∧ ∀ a, data r = Some a →
        ∃ bs b,
          fetched v w = inl (frame_of_bars bs)
          ∧ last bs = Some b
          ∧ price a = Close b
          ∧ bars_analyzed a = length bs
          ∧ Forall (λ b', (ts b' ≤ ts b)%Z) bs.
Proof.
  destruct (analyze_market_cases v w s) as (r & s' & Hrun & Hcase).
  exists r, s'. split; [exact Hrun|]. intros a Ha.
  destruct Hcase as [e He|d Hd Hn|d close i p bw Hd [Hc Hlen] Hi Hp Hpi Hbw];
    simpl in Ha; simplify_eq.
  destruct (fetched_frame_of_bars v w d Hd) as (bs & -> & Hs).
  assert (length bs = S i) as Hbs.
  { unfold df_len, frame_of_bars in Hi. simpl in Hi.
    by rewrite length_fmap in Hi. }
  assert (close = Close <$> bs) as ->.
  { destruct (frame_of_bars_has_close bs) as [Hc' _]. congruence. }
  rewrite list_lookup_fmap in Hpi.
  destruct (bs !! i) as [b|] eqn:Hb; [|done]. simpl in Hpi.
  assert (last bs = Some b) as Hl by (by rewrite last_lookup, Hbs).
  exists bs, b. split; [done|]. split; [done|].
  split; [simpl; congruence|]. split; [by simpl|].
  by apply sorted_last_is_greatest.
Qed.

(** ** The lookback window of the decision *)









(** ** Shape of the bands *)



(** ** Scaling the prices *)

Section scaling.
Context (lam : R) (cs : list R) (period i : nat).
Hypothesis Hlam : 0 < lam.






End scaling.


(** ** Instances *)

(** X7 where Twelve Data answers 500 and Yahoo 404. *)
Lemma X7_error_pages_witness :
  ∃ r s0 x s1,
    analyze_market Scheduler error_pages (triggered init_state) = Some (r, s0)
    ∧ status r = StError
    ∧ message r
      = "Data fetch failed: Yahoo fetch failed: 404 Client Error: Not Found"
    ∧ main_execution error_pages init_state = Some (x, s1)
    ∧ dispatches (trace s1) = [].
Proof.
  destruct (X7_scheduler_rejects_error_status error_pages init_state
              500 404 "500 Server Error: Internal Server Error"
              "404 Client Error: Not Found"
              (TwObject (Some "Internal error") None)
              (YMalformed "'chart'"))
    as (r & s0 & x & s1 & Hrun & Hst & Hmsg & _ & _ & _ & Hmain & Hdis);
    try reflexivity.
  exists r, s0, x, s1. split; [exact Hrun|]. split; [exact Hst|].
  split; [exact Hmsg|]. split; [exact Hmain|]. exact Hdis.
Defined.




(** ** Sending the alert *)

Lemma send_telegram_message_run v w p bw sl tp s :
  ∃ msg,
    send_telegram_message v w p bw sl tp s
    = Some ((telegram_ok v w, msg),
            {| heap := heap s;
               trace := telegram_events v w p bw sl tp ++ trace s |})
    ∧ (telegram_ok v w = true → msg = "Sent")
    ∧ (configured w = false → msg = "Telegram not configured").
Proof.
  destruct s as [h tr].
  unfold send_telegram_message, telegram_ok, telegram_events.
  destruct (configured w) eqn:Hcfg.
  - rewrite (configured_true w Hcfg). run_M.
    destruct v, (telegram_reply w) as [e|c e t]; simpl;
      repeat case_bool_decide; try destruct (is_error_status c);
      simpl; eexists; (split; [reflexivity|]); done.
  - rewrite (configured_false w Hcfg). run_M.
    destruct v; simpl; eexists; (split; [reflexivity|]); done.
Qed.

Lemma send_trade_alert_run v w d s :
  ∃ msg,
    send_trade_alert v w d s
    = Some ((telegram_ok v w, msg),
            {| heap := heap s;
               trace := telegram_events v w (price d) (band_width d)
                          (stop_loss_of (price d)) (take_profit_of (price d))
                        ++ EvTradeAlert (price d) (band_width d) :: trace s |})
    ∧ (telegram_ok v w = true → msg = "Sent")
    ∧ (configured w = false → msg = "Telegram not configured").
Proof.
  unfold send_trade_alert.
  erewrite (bind_Some (emit _)) by reflexivity.
  apply (send_telegram_message_run v w _ _ _ _
           {| heap := heap s;
              trace := EvTradeAlert (price d) (band_width d) :: trace s |}).
Qed.

Lemma configured_spec w :
  configured w = true
  ↔ (∃ t, TELEGRAM_BOT_TOKEN w = Some t ∧ t ≠ "")
    ∧ (∃ c, TELEGRAM_CHAT_ID w = Some c ∧ c ≠ "").
Proof.
  unfold configured, truthy.
  destruct (TELEGRAM_BOT_TOKEN w) as [t|], (TELEGRAM_CHAT_ID w) as [c|];
    simpl; repeat case_bool_decide; simpl; split;
    try done; try (intros [[? [[=] ?]] [? [[=] ?]]]; by subst);
    intros _; split; eauto.
Qed.

Lemma telegram_ok_spec v w :
  telegram_ok v w = true
  ↔ configured w = true
    ∧ ∃ c e t, telegram_reply w = Responded c e t
               ∧ match v with
                 | Cron => c = 200%Z
                 | Scheduler => ¬ (400 ≤ c < 600)%Z
                 end.
Proof.
  unfold telegram_ok, is_error_status.
  destruct (configured w); simpl; [|by split; [|intros [? _]]].
  destruct (telegram_reply w) as [e|c e t], v;
    repeat case_bool_decide; simpl; split; try done;
    try (intros [_ (? & ? & ? & [=] & ?)]; by subst);
    intros _; split; eauto 10.
Qed.

Lemma dispatches_app (a b : list event) :
  dispatches (a ++ b) = dispatches a ++ dispatches b.
Proof.
  induction a as [|[] a IH]; simpl; by rewrite ?IH.
Qed.

Lemma dispatches_telegram_events v w p bw sl tp :
  dispatches (telegram_events v w p bw sl tp)
  = if configured w then [EvPost p bw sl tp] else [].
Proof. unfold telegram_events. by destruct (configured w), v. Qed.

(** X14: [send_telegram_message] never raises.  It posts exactly once when
    both secrets are set and not at all when one is unset or empty
    (answering "Telegram not configured"); it reports success, with the
    text "Sent", exactly when it posted and the endpoint answered with
    status 200 (cron.py), respectively with a status outside 4xx/5xx
    (alert_scheduler.py). *)
Theorem X14_telegram_delivery
    (v : variant) (w : world) (p bw sl tp : fval) (s : state) :
  ∃ ok msg s',
    send_telegram_message v w p bw sl tp s = Some ((ok, msg), s')
    ∧ heap s' = heap s
    ∧ dispatches (trace s')
      = (if configured w then [EvPost p bw sl tp] else [])
        ++ dispatches (trace s)
    ∧ (configured w = true
       ↔ (∃ t, TELEGRAM_BOT_TOKEN w = Some t ∧ t ≠ "")
         ∧ (∃ c, TELEGRAM_CHAT_ID w = Some c ∧ c ≠ ""))
    ∧ (ok = true
       ↔ configured w = true
         ∧ ∃ c e t, telegram_reply w = Responded c e t
                    ∧ match v with
                      | Cron => c = 200%Z
                      | Scheduler => ¬ (400 ≤ c < 600)%Z
                      end)
    ∧ (ok = true → msg = "Sent")
    ∧ (configured w = false → msg = "Telegram not configured").
Proof.
  destruct (send_telegram_message_run v w p bw sl tp s)
    as (msg & Hrun & Hok & Hno).
  eexists _, msg, _. split; [exact Hrun|]. cbn [heap trace].
  split; [done|].
  split; [by rewrite dispatches_app, dispatches_telegram_events|].
  split; [apply configured_spec|].
  split; [apply telegram_ok_spec|]. done.
Qed.

(** X15: cron.py is the stricter of the two files about Telegram's answer:
    whenever its [send_telegram_message] reports success, so does the one of
    alert_scheduler.py; on an answer with a status other than 200 outside
    4xx/5xx (a 201, a redirect) only alert_scheduler.py reports success,
    while cron.py returns the response text as the error.  Both post the
    same message. *)
Theorem X15_cron_acceptance_is_stricter
    (w : world) (p bw sl tp : fval) (s : state) :
  ∃ okc mc sc oks ms ss,
    send_telegram_message Cron w p bw sl tp s = Some ((okc, mc), sc)
    ∧ send_telegram_message Scheduler w p bw sl tp s = Some ((oks, ms), ss)
    ∧ dispatches (trace sc) = dispatches (trace ss)
    ∧ (okc = true → oks = true)
    ∧ (∀ c e t,
         configured w = true → telegram_reply w = Responded c e t →
         c ≠ 200%Z → ¬ (400 ≤ c < 600)%Z →
         okc = false ∧ mc = t ∧ oks = true).
Proof.
  destruct (send_telegram_message_run Cron w p bw sl tp s)
    as (mc & Hc & _ & _).
  destruct (send_telegram_message_run Scheduler w p bw sl tp s)
    as (ms & Hs & _ & _).
  eexists _, mc, _, _, ms, _. split; [exact Hc|]. split; [exact Hs|].
  cbn [trace]. split; [by rewrite !dispatches_app, !dispatches_telegram_events|].
  split.
  - rewrite !telegram_ok_spec. intros [Hcfg (c & e & t & Hr & ->)].
    split; [done|]. exists 200%Z, e, t. split; [done|lia].
  - intros c e t Hcfg Hr Hc200 Herr.
    assert (telegram_ok Scheduler w = true) as Hoks.
    { apply telegram_ok_spec. eauto 10. }
    assert (telegram_ok Cron w = false) as Hokc.
    { apply not_true_is_false. rewrite telegram_ok_spec.
      intros [_ (c' & e' & t' & Hr' & ->)]. congruence. }
    split; [done|]. split; [|done].
    revert Hc. unfold send_telegram_message.
    rewrite (configured_true w Hcfg), Hr. run_M.
    rewrite bool_decide_false by done. congruence.
Qed.

(** X16: the alert is a SELL set-up at one to five: whatever Telegram
    answers, [send_trade_alert] never raises; the message it posts (if the
    secrets are set) carries the stop loss 4 pips above the reported price
    and the take profit 20 pips below it, five times as far; a price that
    is NaN gives NaN levels. *)
Theorem X16_trade_levels_one_to_five
    (v : variant) (w : world) (d : analysis) (s : state) :
  ∃ ok msg s' sl tp,
    send_trade_alert v w d s = Some ((ok, msg), s')
    ∧ heap s' = heap s
    ∧ dispatches (trace s')
      = (if configured w then [EvPost (price d) (band_width d) sl tp] else [])
        ++ EvTradeAlert (price d) (band_width d) :: dispatches (trace s)
    ∧ (∀ x, price d = Fin x →
         ∃ a b, sl = Fin a ∧ tp = Fin b
                ∧ a - x = 4 / 10000 ∧ x - b = 20 / 10000
                ∧ x - b = 5 * (a - x) ∧ b < x < a)
    ∧ (price d = NaN → sl = NaN ∧ tp = NaN).
Proof.
  destruct (send_trade_alert_run v w d s) as (msg & Hrun & _ & _).
  eexists _, msg, _, (stop_loss_of (price d)), (take_profit_of (price d)).
  split; [exact Hrun|]. cbn [heap trace]. split; [done|].
  split; [by rewrite dispatches_app, dispatches_telegram_events|].
  unfold stop_loss_of, take_profit_of. split.
  - intros x ->. simpl. eexists _, _.
    split; [reflexivity|]. split; [reflexivity|]. lra.
  - by intros ->.
Qed.

(** ** The answer of the cron endpoint *)



Section cron_signal.
Context (w : world) (s : state) (r : result) (s0 : state) (d : analysis).
Hypothesis Hrun : analyze_market Cron w (triggered s) = Some (r, s0).
Hypothesis Hst : status r = StSuccess.
Hypothesis Hd : data r = Some d.
Hypothesis Hsig : signal d = true.



End cron_signal.



(** ** The scheduled run *)

Section scheduler_signal.
Context (w : world) (s : state) (r : result) (s0 : state) (d : analysis).
Hypothesis Hcfg : configured w = true.
Hypothesis Hrun : analyze_market Scheduler w (triggered s) = Some (r, s0).
Hypothesis Hst : status r = StSuccess.
Hypothesis Hd : data r = Some d.
Hypothesis Hsig : signal d = true.

Lemma main_execution_cooldown :
  Rleb ALERT_COOLDOWN (now_ts w) = false →
  main_execution w s
  = Some (Returned,
          {| heap := heap s0;
             trace := EvPrint (LogCooldown
                                 (trunc ((ALERT_COOLDOWN - now_ts w) / 60)))
                      :: EvPrint (LogSignalDetected (price d) (band_width d))
                      :: trace s0 |}).
Proof.
  intros Hcool. unfold main_execution. fold (configured w).
  rewrite Hcfg. cbn [negb].
  erewrite (bind_Some (emit _)) by reflexivity.
  erewrite (bind_Some (analyze_market _ _)) by exact Hrun.
  rewrite Hst. run_M. by rewrite Hd, Hsig, Rminus_0_r, Hcool.
Qed.

Lemma main_execution_alert :
  Rleb ALERT_COOLDOWN (now_ts w) = true →
  ∃ msg,
    main_execution w s
    = Some (Returned,
            {| heap := heap s0;
               trace := EvPrint (if telegram_ok Scheduler w then LogAlertSent
                                 else LogAlertFailed msg)
                        :: EvPost (price d) (band_width d)
                             (stop_loss_of (price d)) (take_profit_of (price d))
                        :: EvTradeAlert (price d) (band_width d)
                        :: EvPrint (LogSignalDetected (price d) (band_width d))
                        :: trace s0 |}).
Proof.
  intros Hcool. unfold main_execution. fold (configured w).
  rewrite Hcfg. cbn [negb].
  erewrite (bind_Some (emit _)) by reflexivity.
  erewrite (bind_Some (analyze_market _ _)) by exact Hrun.
  rewrite Hst.
  unfold the_data, get_last_alert_time, set_last_alert_time, emit,
    mbind, M_bind, mret, M_ret.
  cbn [heap trace]. rewrite Hd, Hsig, Rminus_0_r, Hcool.
  match goal with
  | |- context [send_trade_alert Scheduler w d ?st] =>
      destruct (send_trade_alert_run Scheduler w d st) as (msg & -> & _ & _)
  end.
  exists msg. cbn [heap trace]. unfold telegram_events. rewrite Hcfg.
  by destruct (telegram_ok Scheduler w).
Qed.

End scheduler_signal.

Lemma fetch_trace_app v w tr :
  ∃ pre, fetch_trace v w tr = pre ++ tr
         ∧ (pre = [] ∨ ∃ err, pre = [EvPrint (LogTwelveFailed err)]).
Proof.
  unfold fetch_trace. destruct v; [exists []; auto|].
  destruct (twelve_data_outcome Scheduler w) as [?|err].
  - exists []. auto.
  - exists [EvPrint (LogTwelveFailed err)]. eauto.
Qed.

Lemma analysis_case_trace v w s r s' :
  analysis_case v w s r s' →
  ∃ pre, trace s' = pre ++ trace s
         ∧ (pre = [] ∨ ∃ err, pre = [EvPrint (LogTwelveFailed err)]).
Proof. intros []; apply fetch_trace_app. Qed.

(** X18: [main_execution] never raises.  With a secret unset or empty it
    prints the critical error and exits with code 1 before anything is
    fetched; otherwise it returns normally.  It never prints "Telegram
    configuration missing": the check in [send_telegram_message] cannot
    fail behind the one at the entry.  A run calls [send_trade_alert] at
    most once, each call posts one message with the stop loss 4 pips above
    and the take profit 20 pips below the price, and "Alert sent
    successfully" is printed exactly when a message was posted and Telegram
    answered outside 4xx/5xx. *)
Theorem X18_scheduler_exit (w : world) (s : state) :
  ∃ x s1 new,
    main_execution w s = Some (x, s1)
    ∧ trace s1 = new ++ trace s
    ∧ (configured w = false
       → x = SysExit 1 ∧ new = [EvPrint LogCritical] ∧ heap s1 = heap s)
    ∧ (configured w = true
       → x = Returned ∧ last new = Some (EvPrint LogTriggered))
    ∧ (EvPrint LogTelegramMissing ∉ new)
    ∧ (dispatches new = []
       ∨ ∃ p bw, dispatches new
                 = [EvPost p bw (fadd p (Fin (4 / 10000)))
                                (fsub p (Fin (20 / 10000)));
                    EvTradeAlert p bw])
    ∧ (EvPrint LogAlertSent ∈ new
       ↔ dispatches new ≠ []
         ∧ ∃ c e t, telegram_reply w = Responded c e t
                    ∧ ¬ (400 ≤ c < 600)%Z).
Proof.
  destruct (configured w) eqn:Hcfg.
  2:{ eexists _, _, [EvPrint LogCritical].
      split; [by apply main_execution_not_configured|].
      cbn [heap trace]. split; [done|]. split; [done|]. split; [done|].
      rewrite !list_elem_of_singleton. simpl.
      split; [done|]. split; [by left|]. split; [done|by intros [? _]]. }
  destruct (analyze_market_cases Scheduler w (triggered s))
    as (r & s0 & Hrun & Hcase).
  destruct (analysis_case_trace _ _ _ _ _ Hcase) as (pre & Htr & Hpre).
  cbn [triggered trace] in Htr.
  pose proof (analysis_case_status _ _ _ _ _ Hcase) as Hst.
  pose proof (telegram_ok_spec Scheduler w) as Hok. rewrite Hcfg in Hok.
  destruct (status r) eqn:Hs.
  { eexists _, _, (EvPrint (LogExecutionFailed (message r)) :: pre
                   ++ [EvPrint LogTriggered]).
    split; [by apply main_execution_error|]. cbn [heap trace].
    rewrite Htr. split; [simpl; by rewrite <- app_assoc|].
    destruct Hpre as [->|[err ->]]; simpl;
      rewrite !elem_of_cons, ?elem_of_nil;
      (split; [done|]); (split; [done|]);
      (split; [intuition discriminate|]); (split; [by left|]);
      (split; [intuition discriminate|by intros [? _]]). }
  destruct Hst as [d Hd]. destruct (signal d) eqn:Hsig.
  2:{ eexists _, _, (EvPrint (LogNoSignal (join_reasons (no_signal_reasons d)))
                     :: pre ++ [EvPrint LogTriggered]).
      split; [by eapply main_execution_no_signal|]. cbn [heap trace].
      rewrite Htr. split; [simpl; by rewrite <- app_assoc|].
      destruct Hpre as [->|[err ->]]; simpl;
        rewrite !elem_of_cons, ?elem_of_nil;
        (split; [done|]); (split; [done|]);
        (split; [intuition discriminate|]); (split; [by left|]);
        (split; [intuition discriminate|by intros [? _]]). }
  destruct (Rleb ALERT_COOLDOWN (now_ts w)) eqn:Hcool.
  - destruct (main_execution_alert w s r s0 d Hcfg Hrun Hs Hd Hsig Hcool)
      as [msg Hmain].
    eexists _, _, (_ :: _ :: _ :: _ :: pre ++ [EvPrint LogTriggered]).
    split; [exact Hmain|]. cbn [heap trace].
    rewrite Htr. split; [simpl; by rewrite <- app_assoc|].
    unfold stop_loss_of, take_profit_of.
    destruct Hpre as [->|[err ->]], (telegram_ok Scheduler w); simpl;
      rewrite !elem_of_cons, ?elem_of_nil;
      (split; [done|]); (split; [done|]);
      (split; [intuition discriminate|]); (split; [right; eauto|]);
      destruct Hok as [Hok1 Hok2];
      (split;
         [ intros Hin;
           first [ destruct Hok1 as [_ Hr]; [done|]; split; [done|exact Hr]
                 | exfalso; clear -Hin; intuition discriminate ]
         | intros [_ Hr];
           first [ by left | by specialize (Hok2 (conj eq_refl Hr)) ] ]).
  - eexists _, _, (_ :: _ :: pre ++ [EvPrint LogTriggered]).
    split; [by eapply main_execution_cooldown|]. cbn [heap trace].
    rewrite Htr. split; [simpl; by rewrite <- app_assoc|].
    destruct Hpre as [->|[err ->]]; simpl;
      rewrite !elem_of_cons, ?elem_of_nil;
      (split; [done|]); (split; [done|]);
      (split; [intuition discriminate|]); (split; [by left|]);
      (split; [intuition discriminate|by intros [? _]]).
Qed.

(** ** The signal in closed form *)








(** ** [calculate_bollinger_bands] on any frame *)

Lemma with_bands_twice close period std d :
  with_bands close period std (with_bands close period std d)
  = with_bands close period std d.
Proof.
  unfold with_bands, set_column. cbv zeta. simpl. f_equal.
  apply map_eq. intros k.
  destruct (decide (k = "Band_Width")) as [->|]; [by simplify_map_eq|].
  destruct (decide (k = "Lower_Band")) as [->|]; [by simplify_map_eq|].
  destruct (decide (k = "Upper_Band")) as [->|]; [by simplify_map_eq|].
  destruct (decide (k = "STD")) as [->|]; [by simplify_map_eq|].
  destruct (decide (k = "SMA")) as [->|]; [by simplify_map_eq|].
  by simplify_map_eq.
Qed.

Lemma with_bands_close close period std d :
  columns d !! "Close" = Some close →
  columns (with_bands close period std d) !! "Close" = Some close.
Proof.
  intros Hc. rewrite with_bands_other_columns; [done|].
  unfold indicator_columns. rewrite !elem_of_cons, elem_of_nil.
  intuition discriminate.
Qed.

(** X20: [calculate_bollinger_bands] raises (KeyError) exactly when its
    frame has no Close column.  Otherwise it returns its argument, prints
    and sends nothing, and leaves every other object of the store alone. *)
Theorem X20_bands_need_a_close_column
    (s : state) (df : loc) (period : nat) (std : fval) :
  (calculate_bollinger_bands df period std s = None
   ↔ ∀ d, heap s !! df = Some d → columns d !! "Close" = None)
  ∧ (∀ l s', calculate_bollinger_bands df period std s = Some (l, s') →
       l = df ∧ trace s' = trace s
       ∧ dom (heap s') = dom (heap s)
       ∧ ∀ l', l' ≠ df → heap s' !! l' = heap s !! l').
Proof.
  destruct (heap s !! df) as [d|] eqn:Hd.
  - destruct (columns d !! "Close") as [close|] eqn:Hc.
    + rewrite (calculate_bollinger_bands_run s df d close period std Hd Hc).
      split.
      * split; [done|]. intros H. specialize (H d eq_refl). congruence.
      * intros l s' [= <- <-]. cbn [heap trace].
        split; [done|]. split; [done|]. split.
        -- rewrite dom_insert_L. apply elem_of_dom_2 in Hd.
           apply subseteq_union_1_L. by apply singleton_subseteq_l.
        -- intros l' Hl'. by rewrite lookup_insert_ne.
    + assert (calculate_bollinger_bands df period std s = None) as ->.
      { unfold calculate_bollinger_bands, get_column, mbind, M_bind.
        by rewrite Hd, Hc. }
      split; [|done]. split; [|done]. by intros _ ? [= <-].
  - assert (calculate_bollinger_bands df period std s = None) as ->.
    { unfold calculate_bollinger_bands, get_column, mbind, M_bind.
      by rewrite Hd. }
    split; [|done]. split; [|done]. by intros _ ? [=].
Qed.

(** X21: computing the bands again changes nothing: on a frame with a
    Close column a second call of [calculate_bollinger_bands] with the same
    parameters succeeds and leaves the store exactly as the first call
    did. *)
Theorem X21_bands_idempotent
    (s : state) (df : loc) (d : DataFrame) (close : list fval)
    (period : nat) (std : fval) :
  heap s !! df = Some d →
  columns d !! "Close" = Some close →
  ∃ s1,
    calculate_bollinger_bands df period std s = Some (df, s1)
    ∧ calculate_bollinger_bands df period std s1 = Some (df, s1).
Proof.
  intros Hd Hc. eexists. split; [by apply calculate_bollinger_bands_run|].
  erewrite calculate_bollinger_bands_run;
    [|apply lookup_insert_eq|by apply with_bands_close].
  cbn [heap trace]. by rewrite with_bands_twice, insert_insert_eq.
Qed.

(** ** The cooldown branch *)



(** ** Instances *)




(** X21 on the frame of two bars. *)
Lemma X21_two_bars_witness :
  ∃ s1,
    calculate_bollinger_bands 0%nat 2 (Fin 2) two_bars_state = Some (0%nat, s1)
    ∧ calculate_bollinger_bands 0%nat 2 (Fin 2) s1 = Some (0%nat, s1).
Proof.
  apply (X21_bands_idempotent two_bars_state 0%nat two_bars [Fin 1; Fin 3]).
  - apply lookup_singleton_eq.
  - reflexivity.
Defined.

